(** * InfiniDB: the lazy-materialisation engine of [main.go]

    A shallow embedding of the virtual-table module ([InfiniDBModule]), the
    table handle ([InfiniTable]) and the cursor ([InfiniCursor]) of
    [main.go], together with the properties of the schema cache, the data
    cache and the cursor.

    Everything outside the process (environment variables, the file
    system, the template files, the generator service, the SQLite engine,
    the JSON codec) is reached through the [Host] interface; every call
    that crosses that boundary is recorded in the [trace] of the process,
    so that "the generator was not invoked" or "no file was written" are
    statements about the trace. *)

From Stdlib Require Import ZArith String List Bool Lia.
From Stdlib Require Import SpecFloat.
From stdpp Require Import gmap strings list fin_maps.

Set Warnings "-register-all".
Local Open Scope string_scope.
Local Open Scope list_scope.

(** ** Go values *)

(** A Go [error] is modelled by its message ([err.Error()]). *)
Definition error : Type := string.

(** A Go result pair [(v, err)]: [Ok v] when [err == nil]. *)
Inductive Result (A : Type) : Type :=
| Ok (a : A)
| Err (e : error).
Arguments Ok {A} a.
Arguments Err {A} e.

(** Go's [int] and [int64] are 64-bit two's complement integers. *)
Definition int_min : Z := - 2 ^ 63.
Definition int_max : Z := 2 ^ 63 - 1.

Definition in_int64 (z : Z) : bool := (int_min <=? z)%Z && (z <=? int_max)%Z.

Definition wrap_int (z : Z) : Z := ((z + 2 ^ 63) mod 2 ^ 64 - 2 ^ 63)%Z.

(** [len(l)] as a Go [int]. *)
Definition len {A} (l : list A) : Z := Z.of_nat (length l).

(** A [float64] is an IEEE 754 binary64 datum. *)
Definition float64 : Type := spec_float.

Definition is_float64 (f : float64) : bool := valid_binary 53 1024 f.

(** The integer part of a finite float, rounding toward zero. *)
Definition float64_trunc (f : float64) : option Z :=
  match f with
  | S754_zero _ => Some 0%Z
  | S754_finite s m e =>
      let mag := if (0 <=? e)%Z then (Z.pos m * 2 ^ e)%Z
                 else (Z.pos m / 2 ^ (- e))%Z in
      Some (if s then (- mag)%Z else mag)
  | S754_infinity _ | S754_nan => None
  end.

(** The float is exactly the integer [z]. *)
Definition float64_is_integer (f : float64) (z : Z) : Prop :=
  match f with
  | S754_zero _ => z = 0%Z
  | S754_finite s m e =>
      let sign := fun v : Z => if s then (- v)%Z else v in
      if (0 <=? e)%Z then z = sign (Z.pos m * 2 ^ e)%Z
      else (Z.pos m mod 2 ^ (- e) = 0)%Z ∧ z = sign (Z.pos m / 2 ^ (- e))%Z
  | S754_infinity _ | S754_nan => False
  end.

(** What an [interface{}] can hold in this program: the dynamic types
    produced by [json.Unmarshal] ([nil], [bool], [float64], [string],
    [[]interface{}], [map[string]interface{}]) and the two further ones the
    cursor switches on ([int64], [[]byte]). *)
Inductive Value : Type :=
| VNil
| VBool (b : bool)
| VFloat64 (f : float64)
| VInt64 (z : Z)
| VString (s : string)
| VBytes (b : string)
| VArray (l : list Value)
| VObject (m : gmap string Value).

(** A row is a [map[string]interface{}]. *)
Abbreviation Row := (gmap string Value).

(** ** The data model of [main.go] *)

Record Column : Type := mkColumn {
  Name : string;
  Typ : string;          (* field [Type] *)
  Constraints : string;
  Description : string
}.

Record TableSchema : Type := mkTableSchema {
  Columns : list Column
}.

Record PromptData : Type := mkPromptData {
  TableName : string;
  TableDesc : string
}.

(** [DataResponse], the struct local to [Open]. *)
Record DataResponse : Type := mkDataResponse {
  Rows : list Row
}.

(** The request sent to the generator
    ([openai.ChatCompletionNewParams] with a JSON-schema response format). *)
Record JSONSchemaParam : Type := mkJSONSchemaParam {
  schema_Name : string;
  schema_Description : string;
  schema_Schema : Value;
  schema_Strict : bool
}.

Record ChatCompletionNewParams : Type := mkChatParams {
  Messages : list string;            (* user messages *)
  ResponseFormat : JSONSchemaParam;
  Model : string
}.

Definition ChatModelGPT4o2024_08_06 : string := "gpt-4o-2024-08-06".

(** ** The boundary of the process *)

(** The collaborators of the engine.  [OS] is the state of everything
    outside the process. *)
Class Host (OS : Type) : Type := {
  (* package os *)
  os_Getenv : string → OS → string;
  os_MkdirAll : string → OS → option error * OS;
  os_ReadFile : string → OS → Result string;
  os_WriteFile : string → string → OS → option error * OS;
  (* package path/filepath *)
  filepath_Join : string → string → string;
  (* package text/template: the parsed template, and its execution *)
  template_ParseFiles : string → OS → Result string;
  template_Execute : string → PromptData → Result string;
  (* the generator: [client.Chat.Completions.New]; on success the contents
     of the choices of the completion *)
  chat_Completions_New : ChatCompletionNewParams → OS → Result (list string) * OS;
  (* [GenerateSchema[TableSchema]()], by reflection on the struct *)
  GenerateSchema_TableSchema : Value;
  (* the SQLite connection *)
  sqlite_DeclareVTab : string → OS → option error * OS;
  (* package encoding/json at the three types it is used at *)
  json_Unmarshal_TableSchema : string → Result TableSchema;
  json_Unmarshal_DataResponse : string → Result DataResponse;
  json_Unmarshal_rows : string → Result (list Row);
  json_Marshal_rows : list Row → Result string;
  (* [int64(v)] for a [v] whose integer part no [int64] holds: the Go
     specification leaves the result to the implementation *)
  int64_unrepresentable : float64 → Z
}.

(** Calls that cross the boundary, in the order they are made. *)
Inductive Call : Type :=
| CallGetenv (key : string)
| CallMkdirAll (path : string)
| CallReadFile (path : string)
| CallWriteFile (path data : string)
| CallParseFiles (path : string)
| CallChat (params : ChatCompletionNewParams)
| CallDeclareVTab (schema : string)
| CallPrint (text : string).

Definition is_generator_call (c : Call) : bool :=
  match c with CallChat _ => true | _ => false end.

Definition is_file_write (c : Call) : bool :=
  match c with CallWriteFile _ _ => true | _ => false end.

(** Number of generator invocations in a trace. *)
Definition generator_calls (tr : list Call) : nat :=
  length (filter (λ c, is_generator_call c = true) tr).

Definition file_writes (tr : list Call) : list Call :=
  filter (λ c, is_file_write c = true) tr.

(** ** The process state and the monad of Go code *)

Record Process (OS : Type) : Type := mkProcess {
  schemaCache : gmap string (list Column);   (* the package-level variable *)
  world : OS;
  trace : list Call
}.
Arguments mkProcess {OS} _ _ _.
Arguments schemaCache {OS} _.
Arguments world {OS} _.
Arguments trace {OS} _.

(** A Go call either returns or panics. *)
Inductive Outcome (A : Type) : Type :=
| Returns (a : A)
| Panics (msg : string).
Arguments Returns {A} a.
Arguments Panics {A} msg.

Definition Go (OS A : Type) : Type := Process OS → Outcome A * Process OS.

Definition go_ret {OS A} (a : A) : Go OS A := λ p, (Returns a, p).

Definition go_bind {OS A B} (f : A → Go OS B) (m : Go OS A) : Go OS B :=
  λ p, match m p with
       | (Returns a, p') => f a p'
       | (Panics msg, p') => (Panics msg, p')
       end.

#[global] Instance Go_ret OS : MRet (Go OS) := @go_ret OS.
#[global] Instance Go_bind OS : MBind (Go OS) := @go_bind OS.

Definition newline : string := String (Ascii.ascii_of_nat 10) EmptyString.

(** The process after a call [c] that left the world in [w]. *)
Definition record {OS} (c : Call) (w : OS) (p : Process OS) : Process OS :=
  mkProcess (schemaCache p) w (trace p ++ [c]).

Section Boundary.
Context {OS : Type} `{Host OS}.

Definition Getenv (key : string) : Go OS string :=
  λ p, (Returns (os_Getenv key (world p)),
        record (CallGetenv key) (world p) p).

Definition MkdirAll (path : string) : Go OS (option error) :=
  λ p, let '(err, w) := os_MkdirAll path (world p) in
       (Returns err, record (CallMkdirAll path) w p).

Definition ReadFile (path : string) : Go OS (Result string) :=
  λ p, (Returns (os_ReadFile path (world p)),
        record (CallReadFile path) (world p) p).

Definition WriteFile (path data : string) : Go OS (option error) :=
  λ p, let '(err, w) := os_WriteFile path data (world p) in
       (Returns err, record (CallWriteFile path data) w p).

Definition ParseFiles (path : string) : Go OS (Result string) :=
  λ p, (Returns (template_ParseFiles path (world p)),
        record (CallParseFiles path) (world p) p).

Definition ChatCompletionsNew (params : ChatCompletionNewParams)
  : Go OS (Result (list string)) :=
  λ p, let '(r, w) := chat_Completions_New params (world p) in
       (Returns r, record (CallChat params) w p).

Definition DeclareVTab (schema : string) : Go OS (option error) :=
  λ p, let '(err, w) := sqlite_DeclareVTab schema (world p) in
       (Returns err, record (CallDeclareVTab schema) w p).

(** [fmt.Println] and [fmt.Printf] to standard output. *)
Definition fmt_Print (text : string) : Go OS unit :=
  λ p, (Returns tt, record (CallPrint text) (world p) p).

(** [schemaCache[name]] and [schemaCache[name] = columns]. *)
Definition cacheLookup (name : string) : Go OS (option (list Column)) :=
  λ p, (Returns (schemaCache p !! name), p).

Definition cacheStore (name : string) (columns : list Column) : Go OS unit :=
  λ p, (Returns tt,
        mkProcess (<[name := columns]> (schemaCache p)) (world p) (trace p)).

(** [chat.Choices[0].Message.Content]: indexing an empty slice panics. *)
Definition firstChoice (choices : list string) : Go OS string :=
  λ p, match choices with
       | content :: _ => (Returns content, p)
       | [] => (Panics "index out of range [0] with length 0", p)
       end.

(** [int64(v)] for a [float64]. *)
Definition int64_of_float64 (v : float64) : Z :=
  match float64_trunc v with
  | Some z => if in_int64 z then z else int64_unrepresentable v
  | None => int64_unrepresentable v
  end.

(** [renderPrompt], lines 39-49. *)
Definition renderPrompt (templatePath : string) (data : PromptData)
  : Go OS (Result string) :=
  tmpl ← ParseFiles templatePath;
  match tmpl with
  | Err err =>
      mret (Err ("failed to parse template " +:+ templatePath +:+ ": " +:+ err))
  | Ok tmpl =>
      match template_Execute tmpl data with
      | Err err =>
          mret (Err ("failed to execute template " +:+ templatePath +:+ ": " +:+ err))
      | Ok buf => mret (Ok buf)
      end
  end.
End Boundary.

(** [makeDataSchema], lines 318-356.  The [[]string] of required names is
    carried as an array of strings. *)
Definition columnDataSchema (col : Column) : Value :=
  let ty :=
    if decide (Typ col = "INTEGER") then "integer"
    else if decide (Typ col = "REAL") then "number"
    else if decide (Typ col = "TEXT" ∨ Typ col = "BLOB") then "string"
    else "string" in
  VObject (<["description" := VString (Description col)]>
           (<["type" := VString ty]> ∅)).

Definition makeDataSchema (columns : list Column) : Value :=
  let properties : gmap string Value :=
    foldl (λ props col, <[Name col := columnDataSchema col]> props) ∅ columns in
  let required := VArray (VString <$> (Name <$> columns)) in
  let item : gmap string Value :=
    <["type" := VString "object"]>
    (<["properties" := VObject properties]>
    (<["required" := required]>
    (<["additionalProperties" := VBool false]> ∅))) in
  let rowsSchema : gmap string Value :=
    <["type" := VString "array"]> (<["items" := VObject item]> ∅) in
  VObject
    (<["type" := VString "object"]>
    (<["properties" := VObject (<["rows" := VObject rowsSchema]> ∅)]>
    (<["required" := VArray [VString "rows"]]>
    (<["additionalProperties" := VBool false]> ∅)))).

(** ** The cursor, lines 234-306 *)

(** What a cursor hands to the engine through a [*sqlite3.SQLiteContext]. *)
Inductive SQLiteResult : Type :=
| ResultNull
| ResultInt64 (v : Z)
| ResultText (v : string)
| ResultDouble (v : float64)
| ResultBlob (v : string).

(** The context, as the results set on it so far, oldest first. *)
Definition SQLiteContext : Type := list SQLiteResult.

Module InfiniCursor.

Record t : Type := mk {
  tableName : string;
  data : list Row;
  pos : Z;
  columns : list Column
}.

(** A method with receiver [cur *InfiniCursor] returns its results and
    the cursor it leaves behind. *)
Definition Method (A : Type) : Type := t → A * t.

Definition set_pos (p : Z) (cur : t) : t :=
  mk (tableName cur) (data cur) p (columns cur).

Definition Close : Method (option error) := λ cur, (None, cur).

(** The arguments [idxNum], [idxStr] and [vals] are ignored. *)
Definition Filter : Method (option error) := λ cur, (None, set_pos 0 cur).

Definition Next : Method (option error) :=
  λ cur, (None, set_pos (wrap_int (pos cur + 1)) cur).

Definition EOF : Method bool := λ cur, ((len (data cur) <=? pos cur)%Z, cur).

Definition Rowid : Method (Z * option error) := λ cur, ((pos cur, None), cur).

Section Column.
Context {OS : Type} `{Host OS}.

(** The [switch] on the declared type, lines 272-305: the context it
    leaves and the error it returns. *)
Definition coerce (c : SQLiteContext) (colName colType : string) (value : Value)
  : SQLiteContext * option error :=
  if decide (colType = "INTEGER") then
    match value with
    | VFloat64 v => (c ++ [ResultInt64 (int64_of_float64 v)], None)
    | VInt64 v => (c ++ [ResultInt64 v], None)
    | _ => (c, Some ("type mismatch for " +:+ colName +:+ ": expected integer"))
    end
  else if decide (colType = "TEXT") then
    match value with
    | VString v => (c ++ [ResultText v], None)
    | _ => (c, Some ("type mismatch for " +:+ colName +:+ ": expected text"))
    end
  else if decide (colType = "REAL") then
    match value with
    | VFloat64 v => (c ++ [ResultDouble v], None)
    | _ => (c, Some ("type mismatch for " +:+ colName +:+ ": expected real"))
    end
  else if decide (colType = "BLOB") then
    match value with
    | VString v => (c ++ [ResultBlob v], None)
    | VBytes v => (c ++ [ResultBlob v], None)
    | _ => (c, Some ("type mismatch for " +:+ colName +:+ ": expected blob"))
    end
  else (c, Some ("unsupported column type: " +:+ colType)).

Definition Column (c : SQLiteContext) (col : Z)
  : Method (SQLiteContext * option error) :=
  λ cur,
    if ((pos cur <? 0) || (len (data cur) <=? pos cur)
        || (col <? 0) || (len (columns cur) <=? col))%Z
    then ((c, Some "invalid cursor position or column index"), cur)
    else
      match data cur !! Z.to_nat (pos cur), columns cur !! Z.to_nat col with
      | Some row, Some column =>
          let colName := Name column in
          match row !! colName with
          | None => ((c ++ [ResultNull], None), cur)
          | Some value => (coerce c colName (Typ column) value, cur)
          end
      | _, _ => ((c, Some "invalid cursor position or column index"), cur)
      end.
End Column.

End InfiniCursor.

(** ** The table handle, lines 149-232 *)

(** The arguments and the result of [BestIndex], as package [sqlite3]
    declares them. *)
Record InfoConstraint : Type := mkInfoConstraint {
  ic_Column : Z;
  ic_Op : Z;
  ic_Usable : bool
}.

Record InfoOrderBy : Type := mkInfoOrderBy {
  ob_Column : Z;
  ob_Desc : bool
}.

Record IndexResult : Type := mkIndexResult {
  Used : list bool;
  IdxNum : Z;
  IdxStr : string;
  AlreadyOrdered : bool;
  EstimatedCost : float64;
  EstimatedRows : float64
}.

Module InfiniTable.

Record t : Type := mk {
  tableName : string;
  tableDesc : string;
  columns : list Column
}.

Section Open.
Context {OS : Type} `{Host OS}.

Definition newCursor (vt : t) (rows : list Row) : InfiniCursor.t :=
  InfiniCursor.mk (tableName vt) rows 0 (columns vt).

(** Lines 179-231 of [Open]: the cache held nothing usable. *)
Definition generate (vt : t) (cacheFile : string) : Go OS (Result InfiniCursor.t) :=
  apiKey ← Getenv "OPENAI_API_KEY";
  if decide (apiKey = "") then mret (Err "OPENAI_API_KEY not set") else
  let dataSchema := makeDataSchema (columns vt) in
  let schemaParam :=
    mkJSONSchemaParam "table_data" "Generated data rows" dataSchema true in
  prompt ← renderPrompt "prompts/data_generation.txt"
             (mkPromptData (tableName vt) (tableDesc vt));
  match prompt with
  | Err err => mret (Err ("failed to render data prompt: " +:+ err))
  | Ok prompt =>
      chat ← ChatCompletionsNew
               (mkChatParams [prompt] schemaParam ChatModelGPT4o2024_08_06);
      match chat with
      | Err err => mret (Err ("data generation failed: " +:+ err))
      | Ok choices =>
          content ← firstChoice choices;
          match json_Unmarshal_DataResponse content with
          | Err err => mret (Err ("failed to parse data JSON: " +:+ err))
          | Ok dataResp =>
              if decide (len (Rows dataResp) = 0%Z)
              then mret (Err "no data generated")
              else
                match json_Marshal_rows (Rows dataResp) with
                | Ok jsonData =>
                    err ← WriteFile cacheFile jsonData;
                    match err with
                    | Some err =>
                        fmt_Print ("Warning: failed to write to cache: "
                               +:+ err +:+ newline)
                    | None => mret tt
                    end
                | Err _ => mret tt
                end;;
                mret (Ok (newCursor vt (Rows dataResp)))
          end
      end
  end.

Definition Open (vt : t) : Go OS (Result InfiniCursor.t) :=
  let cacheDir := ".cache" in
  err ← MkdirAll cacheDir;
  match err with
  | Some err =>
      fmt_Print ("Warning: failed to create cache directory: " +:+ err +:+ newline)
  | None => mret tt
  end;;
  let cacheFile := filepath_Join cacheDir (tableName vt +:+ "_data.json") in
  file ← ReadFile cacheFile;
  match file with
  | Ok data =>
      match json_Unmarshal_rows data with
      | Ok rows =>
          fmt_Print ("Loading data from cache for table: "
                 +:+ tableName vt +:+ newline);;
          mret (Ok (newCursor vt rows))
      | Err _ => generate vt cacheFile
      end
  | Err _ => generate vt cacheFile
  end.

Definition Disconnect (vt : t) : option error := None.
Definition Destroy (vt : t) : option error := None.
End Open.

(** [BestIndex], lines 155-159: [make([]bool, len(cst))] is a slice of
    [len(cst)] times [false]; the fields the literal leaves out hold their
    zero values. *)
Definition BestIndex (vt : t) (cst : list InfoConstraint) (ob : list InfoOrderBy)
  : IndexResult * option error :=
  (mkIndexResult (replicate (length cst) false) 0 "" false
     (S754_zero false) (S754_zero false),
   None).

End InfiniTable.

(** ** The module, lines 51-147 *)

Module InfiniDBModule.

Definition validTypes : gmap string bool :=
  <["INTEGER" := true]> (<["TEXT" := true]> (<["REAL" := true]>
  (<["BLOB" := true]> ∅))).

(** The validation loop, lines 116-124; a missing key of a
    [map[string]bool] reads as [false]. *)
Fixpoint validateColumns (seenNames : gmap string bool) (columns : list Column)
  : option error :=
  match columns with
  | [] => None
  | col :: rest =>
      if bool_decide (Name col = "") || default false (seenNames !! Name col)
      then Some ("invalid or duplicate column name: " +:+ Name col)
      else
        let seenNames := <[Name col := true]> seenNames in
        if negb (default false (validTypes !! Typ col))
        then Some ("invalid column type: " +:+ Typ col +:+ " for " +:+ Name col)
        else validateColumns seenNames rest
  end.

(** One entry of [schemaParts], lines 132-135. *)
Definition schemaPart (col : Column) : string :=
  let part := Name col +:+ " " +:+ Typ col in
  if decide (Constraints col ≠ "") then part +:+ " " +:+ Constraints col
  else part.

Definition schemaString (columns : list Column) : string :=
  "CREATE TABLE virtual_table ("
  +:+ String.concat ", " (schemaPart <$> columns) +:+ ")".

Section Connect.
Context {OS : Type} `{Host OS}.

(** Lines 67-127 of [Connect]: the columns of the table, from the
    schema cache or from the generator. *)
Definition resolveColumns (tableName tableDesc : string)
  : Go OS (Result (list Column)) :=
  cached ← cacheLookup tableName;
  match cached with
  | Some cached => mret (Ok cached)
  | None =>
      apiKey ← Getenv "OPENAI_API_KEY";
      if decide (apiKey = "") then mret (Err "OPENAI_API_KEY not set") else
      let schemaParam :=
        mkJSONSchemaParam "table_schema" "Schema definition for a SQLite table"
          GenerateSchema_TableSchema true in
      prompt ← renderPrompt "prompts/schema_generation.txt"
                 (mkPromptData tableName tableDesc);
      match prompt with
      | Err err => mret (Err ("failed to render schema prompt: " +:+ err))
      | Ok prompt =>
          chat ← ChatCompletionsNew
                   (mkChatParams [prompt] schemaParam ChatModelGPT4o2024_08_06);
          match chat with
          | Err err => mret (Err ("schema generation failed: " +:+ err))
          | Ok choices =>
              content ← firstChoice choices;
              match json_Unmarshal_TableSchema content with
              | Err err => mret (Err ("failed to parse schema JSON: " +:+ err))
              | Ok tableSchema =>
                  let columns := Columns tableSchema in
                  if decide (len columns = 0%Z)
                  then mret (Err "no columns generated")
                  else
                    match validateColumns ∅ columns with
                    | Some err => mret (Err err)
                    | None =>
                        cacheStore tableName columns;;
                        mret (Ok columns)
                    end
              end
          end
      end
  end.

Definition Connect (args : list string) : Go OS (Result InfiniTable.t) :=
  if decide (len args < 4)%Z
  then mret (Err "missing table name argument")
  else
    let tableName := nth 2 args "" in
    let tableDesc := nth 3 args "" in
    columns ← resolveColumns tableName tableDesc;
    match columns with
    | Err err => mret (Err err)
    | Ok columns =>
        let schema := schemaString columns in
        err ← DeclareVTab schema;
        match err with
        | Some err => mret (Err err)
        | None => mret (Ok (InfiniTable.mk tableName tableDesc columns))
        end
    end.

Definition Create (args : list string) : Go OS (Result InfiniTable.t) :=
  Connect args.
End Connect.

End InfiniDBModule.

(** ** A simulated host

    An in-memory host to run the engine on: a map of environment
    variables, a map of files, the replies the generator will give, in
    order, and whether the engine accepts declared schemas.  Documents on
    the wire are decoded through a fixed table. *)

Module Sim.

Record OS : Type := mk {
  env : gmap string string;
  files : gmap string string;
  replies : list (Result (list string));
  engine_ok : bool
}.

Definition float_30 : float64 := S754_finite false 8444249301319680 (-48).
Definition float_30_5 : float64 := S754_finite false 8584986789675008 (-48).
Definition float_1 : float64 := S754_finite false 4503599627370496 (-52).
Definition float_2 : float64 := S754_finite false 4503599627370496 (-51).

Definition users_columns : list Column :=
  [ mkColumn "id" "INTEGER" "PRIMARY KEY" "identifier";
    mkColumn "name" "TEXT" "" "full name";
    mkColumn "age" "INTEGER" "" "age in years" ].

Definition users_rows : list Row :=
  [ {[ "id" := VFloat64 float_1; "name" := VString "Ada"; "age" := VFloat64 float_30 ]};
    {[ "id" := VFloat64 float_2; "name" := VString "Alan" ]} ].

(** Two columns named [a], the first of an unknown type. *)
Definition clash_columns : list Column :=
  [ mkColumn "a" "VARCHAR" "" ""; mkColumn "a" "TEXT" "" "" ].

Definition decode_schema (doc : string) : Result TableSchema :=
  if decide (doc = "users.schema") then Ok (mkTableSchema users_columns)
  else if decide (doc = "empty.schema") then Ok (mkTableSchema [])
  else if decide (doc = "clash.schema") then Ok (mkTableSchema clash_columns)
  else Err "invalid character".

Definition decode_response (doc : string) : Result DataResponse :=
  if decide (doc = "users.response") then Ok (mkDataResponse users_rows)
  else if decide (doc = "empty.response") then Ok (mkDataResponse [])
  else Err "invalid character".

Definition decode_rows (doc : string) : Result (list Row) :=
  if decide (doc = "users.rows") then Ok users_rows
  else Err "invalid character".

(** The only rows this host is asked to encode are those of [users]. *)
Definition encode_rows (rows : list Row) : Result string := Ok "users.rows".

Definition ReadFile (path : string) (w : OS) : Result string :=
  match files w !! path with
  | Some content => Ok content
  | None => Err ("open " +:+ path +:+ ": no such file or directory")
  end.

Definition WriteFile (path content : string) (w : OS) : option error * OS :=
  (None, mk (env w) (<[path := content]> (files w)) (replies w) (engine_ok w)).

Definition Chat (params : ChatCompletionNewParams) (w : OS)
  : Result (list string) * OS :=
  match replies w with
  | reply :: rest => (reply, mk (env w) (files w) rest (engine_ok w))
  | [] => (Err "connection refused", w)
  end.

Definition DeclareVTab (schema : string) (w : OS) : option error * OS :=
  (if engine_ok w then None else Some "declare: syntax error", w).

#[global] Instance host : Host OS := {
  os_Getenv key w := default "" (env w !! key);
  os_MkdirAll path w := (None, w);
  os_ReadFile := ReadFile;
  os_WriteFile := WriteFile;
  filepath_Join dir file := dir +:+ "/" +:+ file;
  template_ParseFiles path w := Ok path;
  template_Execute tmpl d := Ok (tmpl +:+ ": " +:+ TableName d +:+ ", " +:+ TableDesc d);
  chat_Completions_New := Chat;
  GenerateSchema_TableSchema := VObject ∅;
  sqlite_DeclareVTab := DeclareVTab;
  json_Unmarshal_TableSchema := decode_schema;
  json_Unmarshal_DataResponse := decode_response;
  json_Unmarshal_rows := decode_rows;
  json_Marshal_rows := encode_rows;
  int64_unrepresentable v := int_min
}.

(** A fresh process: empty schema cache, nothing traced. *)
Definition boot (w : OS) : Process OS := mkProcess ∅ w [].

Definition with_key : gmap string string := {[ "OPENAI_API_KEY" := "sk-test" ]}.

Definition users_args : list string :=
  ["infinidb"; "main"; "users"; "people who registered"].

End Sim.

(** ** The error taxonomy of the specification, as the messages of the code *)

Definition EmptySchema : error := "no columns generated".
Definition DuplicateColumn (name : string) : error :=
  "invalid or duplicate column name: " +:+ name.
Definition InvalidType (type name : string) : error :=
  "invalid column type: " +:+ type +:+ " for " +:+ name.
Definition EmptyData : error := "no data generated".
Definition CursorOutOfRange : error := "invalid cursor position or column index".
Definition TypeMismatch (colName expected : string) : error :=
  "type mismatch for " +:+ colName +:+ ": expected " +:+ expected.
Definition UnsupportedType (type : string) : error :=
  "unsupported column type: " +:+ type.

(** The word [coerce] uses in its message for each declared type. *)
Definition expected (type : string) : string :=
  if decide (type = "INTEGER") then "integer"
  else if decide (type = "TEXT") then "text"
  else if decide (type = "REAL") then "real"
  else "blob".

Definition declared_type (type : string) : Prop :=
  type = "INTEGER" ∨ type = "TEXT" ∨ type = "REAL" ∨ type = "BLOB".

(** The cursor after [Filter] and [k] calls of [Next]. *)
Definition advance (k : nat) (cur : InfiniCursor.t) : InfiniCursor.t :=
  Nat.iter k (λ c, (InfiniCursor.Next c).2) (InfiniCursor.Filter cur).2.

(** A cursor on a row of the users table whose age is 30.5. *)
Definition fractional_age_cursor : InfiniCursor.t :=
  InfiniCursor.mk "users" [ {[ "age" := VFloat64 Sim.float_30_5 ]} ] 0
    [ mkColumn "age" "INTEGER" "" "age in years" ].

(** A cursor on the second row of the users table, which has no age. *)
Definition users_cursor : InfiniCursor.t :=
  InfiniCursor.mk "users" Sim.users_rows 1 Sim.users_columns.

(** A cursor on a row whose age is the JSON [null]. *)
Definition null_age_cursor : InfiniCursor.t :=
  InfiniCursor.mk "users" [ {[ "age" := VNil ]} ] 0
    [ mkColumn "age" "INTEGER" "" "age in years" ].

(** ** Validated column sets *)

(** The invariant of a column set (section 3 of the specification): it is
    not empty, every name is non-empty, no name occurs twice, and every
    type is one of the four declared ones. *)
Definition prefix_ok (columns : list Column) : Prop :=
  Forall (λ col, Name col ≠ "" ∧ declared_type (Typ col)) columns
  ∧ NoDup (Name <$> columns).

Definition well_formed_columns (columns : list Column) : Prop :=
  columns ≠ [] ∧ prefix_ok columns.

(** Every entry of the schema cache is a validated column set. *)
Definition cache_valid {OS} (p : Process OS) : Prop :=
  ∀ name columns, schemaCache p !! name = Some columns → well_formed_columns columns.

Definition is_declare (c : Call) : bool :=
  match c with CallDeclareVTab _ => true | _ => false end.

(** [seenNames] after the names [names] were marked in it. *)
Definition mark (names : list string) (seenNames : gmap string bool)
  : gmap string bool :=
  foldl (λ seen name, <[name := true]> seen) seenNames names.

(** ** What the generator answers *)

Section Replies.
Context {OS : Type} `{Host OS}.

(** The path of the cache file of a table, as [Open] computes it. *)
Definition cacheFile (tableName : string) : string :=
  filepath_Join ".cache" (tableName +:+ "_data.json").

(** The request [Connect] sends for a rendered prompt. *)
Definition schemaRequest (prompt : string) : ChatCompletionNewParams :=
  mkChatParams [prompt]
    (mkJSONSchemaParam "table_schema" "Schema definition for a SQLite table"
       GenerateSchema_TableSchema true)
    ChatModelGPT4o2024_08_06.

(** The request [Open] sends for a rendered prompt. *)
Definition dataRequest (columns : list Column) (prompt : string)
  : ChatCompletionNewParams :=
  mkChatParams [prompt]
    (mkJSONSchemaParam "table_data" "Generated data rows"
       (makeDataSchema columns) true)
    ChatModelGPT4o2024_08_06.

(** In the process [p], a [Connect] for the table reaches the generator
    (the name is not cached, the credentials are set, the prompt renders),
    the generator answers, leaving the world in [w], and its answer parses
    to [tableSchema]. *)
Definition schema_reply (p : Process OS) (tableName tableDesc : string)
    (tableSchema : TableSchema) (w : OS) : Prop :=
  schemaCache p !! tableName = None ∧
  os_Getenv "OPENAI_API_KEY" (world p) ≠ "" ∧
  ∃ tmpl prompt content rest,
    template_ParseFiles "prompts/schema_generation.txt" (world p) = Ok tmpl ∧
    template_Execute tmpl (mkPromptData tableName tableDesc) = Ok prompt ∧
    chat_Completions_New (schemaRequest prompt) (world p) = (Ok (content :: rest), w) ∧
    json_Unmarshal_TableSchema content = Ok tableSchema.

(** The cache file of the table holds no usable row set in the world [w]. *)
Definition cache_unusable (tableName : string) (w : OS) : Prop :=
  match os_ReadFile (cacheFile tableName) w with
  | Ok data =>
      match json_Unmarshal_rows data with
      | Ok _ => False
      | Err _ => True
      end
  | Err _ => True
  end.

(** In the process [p], an [Open] of the table reaches the generator (no
    usable cache file, the credentials are set, the prompt renders), the
    generator answers, leaving the world in [w], and its answer parses to
    [dataResp]. *)
Definition data_reply (p : Process OS) (vt : InfiniTable.t)
    (dataResp : DataResponse) (w : OS) : Prop :=
  let w1 := (os_MkdirAll ".cache" (world p)).2 in
  cache_unusable (InfiniTable.tableName vt) w1 ∧
  os_Getenv "OPENAI_API_KEY" w1 ≠ "" ∧
  ∃ tmpl prompt content rest,
    template_ParseFiles "prompts/data_generation.txt" w1 = Ok tmpl ∧
    template_Execute tmpl
      (mkPromptData (InfiniTable.tableName vt) (InfiniTable.tableDesc vt)) = Ok prompt ∧
    chat_Completions_New (dataRequest (InfiniTable.columns vt) prompt) w1
      = (Ok (content :: rest), w) ∧
    json_Unmarshal_DataResponse content = Ok dataResp.

(** What the engine asks of the module and of a table handle, and the
    process after a sequence of such requests. *)
Inductive Operation : Type :=
| DoConnect (args : list string)
| DoOpen (vt : InfiniTable.t).

Definition perform (op : Operation) (p : Process OS) : Process OS :=
  match op with
  | DoConnect args => (InfiniDBModule.Connect args p).2
  | DoOpen vt => (InfiniTable.Open vt p).2
  end.

Definition session (ops : list Operation) (p : Process OS) : Process OS :=
  foldl (λ p op, perform op p) p ops.

End Replies.

(** ** Notions for the further properties *)

(** The cursor after [j] calls of [Next], from wherever it stands. *)
Definition nexts (j : nat) (cur : InfiniCursor.t) : InfiniCursor.t :=
  Nat.iter j (λ c, (InfiniCursor.Next c).2) cur.

(** The result handed to the engine fits the declared type of the column:
    the null result fits every type. *)
Definition result_matches (type : string) (r : SQLiteResult) : Prop :=
  match r with
  | ResultNull => True
  | ResultInt64 _ => type = "INTEGER"
  | ResultText _ => type = "TEXT"
  | ResultDouble _ => type = "REAL"
  | ResultBlob _ => type = "BLOB"
  end.

(** The member [key] of a JSON object, and the value at a path of keys. *)
Definition field (key : string) (v : Value) : option Value :=
  match v with
  | VObject m => m !! key
  | _ => None
  end.

Definition at_path (path : list string) (v : Value) : option Value :=
  foldl (λ o key, o ≫= field key) (Some v) path.


(** What [json.Unmarshal] makes, in an [interface{}], of a JSON value of
    the JSON-schema type: a number is a [float64], a string a [string]. *)
Definition decodes_as (jsonType : string) (v : Value) : Prop :=
  if decide (jsonType = "integer" ∨ jsonType = "number") then ∃ f, v = VFloat64 f
  else if decide (jsonType = "string") then ∃ s, v = VString s
  else False.

Section Answers.
Context {OS : Type} `{Host OS}.


End Answers.

Definition is_template_read (c : Call) : bool :=
  match c with CallParseFiles _ => true | _ => false end.

(** ** A simulated host with template files

    The simulated host, with a map of template files beside it: a
    template that is not there fails to parse, and the template
    [{{.Missing}}] fails to execute. *)

Module Faulty.

Record OS : Type := mk {
  base : Sim.OS;
  templates : gmap string string
}.

Definition lift {A} (f : Sim.OS → A * Sim.OS) (w : OS) : A * OS :=
  let '(a, b) := f (base w) in (a, mk b (templates w)).

Definition ParseFiles (path : string) (w : OS) : Result string :=
  match templates w !! path with
  | Some text => Ok text
  | None => Err ("open " +:+ path +:+ ": no such file or directory")
  end.

Definition Execute (text : string) (d : PromptData) : Result string :=
  if decide (text = "{{.Missing}}")
  then Err "can't evaluate field Missing in type main.PromptData"
  else Ok (text +:+ ": " +:+ TableName d +:+ ", " +:+ TableDesc d).

(** Not an instance: the host is named where it is used. *)
Definition host : Host OS := {|
  os_Getenv := λ key w, default "" (Sim.env (base w) !! key);
  os_MkdirAll := λ path w, (None, w);
  os_ReadFile := λ path w, Sim.ReadFile path (base w);
  os_WriteFile := λ path content, lift (Sim.WriteFile path content);
  filepath_Join := λ dir file, dir +:+ "/" +:+ file;
  template_ParseFiles := ParseFiles;
  template_Execute := Execute;
  chat_Completions_New := λ params, lift (Sim.Chat params);
  GenerateSchema_TableSchema := VObject ∅;
  sqlite_DeclareVTab := λ schema, lift (Sim.DeclareVTab schema);
  json_Unmarshal_TableSchema := Sim.decode_schema;
  json_Unmarshal_DataResponse := Sim.decode_response;
  json_Unmarshal_rows := Sim.decode_rows;
  json_Marshal_rows := Sim.encode_rows;
  int64_unrepresentable := λ v, int_min
|}.

(** A fresh process with the credentials set, the generator ready to
    answer, and the given template files. *)
Definition boot (templates : gmap string string) : Process OS :=
  mkProcess ∅
    (mk (Sim.mk Sim.with_key ∅ [Ok ["users.schema"]; Ok ["users.response"]] true)
        templates)
    [].

End Faulty.

(** The number of [Open] requests in a sequence of requests. *)
Definition is_open (op : Operation) : bool :=
  match op with DoOpen _ => true | DoConnect _ => false end.

Definition opens (ops : list Operation) : nat :=
  length (filter (λ op, is_open op = true) ops).

(** ** Tactics *)

Ltac go_unfold :=
  unfold InfiniDBModule.Connect, InfiniDBModule.resolveColumns, InfiniTable.Open,
    InfiniTable.generate, renderPrompt, cacheLookup, cacheStore, firstChoice,
    Getenv, MkdirAll, ReadFile, WriteFile, ParseFiles, ChatCompletionsNew,
    DeclareVTab, fmt_Print, mbind, mret, Go_bind, Go_ret, go_bind, go_ret in *.

(** Case analysis on what the collaborators answer, innermost call first. *)
Ltac go_cases Hrun :=
  simpl in Hrun;
  repeat (match type of Hrun with
          | context [match ?x with _ => _ end] =>
              lazymatch x with
              | context [match _ with _ => _ end] => fail
              | _ => destruct x eqn:?
              end
          end; simpl in Hrun);
  try (injection Hrun as <- <-).

Ltac trace_extends :=
  eexists; split; [simpl; rewrite <- ?app_assoc; simpl; reflexivity |].

(** Picks the disjunct that holds by computation. *)
Ltac pick_error :=
  repeat match goal with
         | |- _ ∨ _ =>
             first [ left; solve [ reflexivity | eexists; reflexivity
                                 | eexists _, _; reflexivity ]
                   | right ]
         end;
  solve [ reflexivity | eexists; reflexivity | eexists _, _; reflexivity ].

(** * The model at work on the simulated host *)

Example schemaString_users :
  InfiniDBModule.schemaString Sim.users_columns
  = "CREATE TABLE virtual_table (id INTEGER PRIMARY KEY, name TEXT, age INTEGER)".
Proof. reflexivity. Qed.

Example validateColumns_users :
  InfiniDBModule.validateColumns ∅ Sim.users_columns = None.
Proof. reflexivity. Qed.

Example validateColumns_clash :
  InfiniDBModule.validateColumns ∅ Sim.clash_columns
  = Some "invalid column type: VARCHAR for a".
Proof. reflexivity. Qed.

(** A first [Connect] asks the generator and declares the schema. *)
Example Connect_users_calls :
  is_generator_call
  <$> trace (InfiniDBModule.Connect Sim.users_args
               (Sim.boot (Sim.mk Sim.with_key ∅ [Ok ["users.schema"]] true))).2
  = [false; false; true; false].
Proof. reflexivity. Qed.

(** Without credentials the generator is not reached. *)
Example Connect_without_key :
  InfiniDBModule.Connect Sim.users_args
    (Sim.boot (Sim.mk ∅ ∅ [Ok ["users.schema"]] true))
  = (Returns (Err "OPENAI_API_KEY not set"),
     mkProcess ∅ (Sim.mk ∅ ∅ [Ok ["users.schema"]] true)
       [CallGetenv "OPENAI_API_KEY"]).
Proof. reflexivity. Qed.

(** A first [Open] writes the cache file. *)
Example Open_users_persists :
  Sim.files
    (world (InfiniTable.Open
              (InfiniTable.mk "users" "people who registered" Sim.users_columns)
              (Sim.boot (Sim.mk Sim.with_key ∅ [Ok ["users.response"]] true))).2)
  !! ".cache/users_data.json" = Some "users.rows".
Proof. reflexivity. Qed.

Example float_30_is_30 :
  is_float64 Sim.float_30 = true ∧ int64_of_float64 Sim.float_30 = 30%Z.
Proof. split; reflexivity. Qed.

Example scan_two_rows :
  (InfiniCursor.EOF (advance 1 users_cursor)).1 = false
  ∧ (InfiniCursor.EOF (advance 2 users_cursor)).1 = true.
Proof. split; reflexivity. Qed.

Example wrap_int_overflow : wrap_int (int_max + 1) = int_min.
Proof. reflexivity. Qed.

(** * Properties of the cursor *)

Section CursorProperties.
Context {OS : Type} `{Host OS}.
Import InfiniCursor.

Lemma len_lookup {A} (l : list A) (i : Z) (x : A) :
  (0 ≤ i)%Z → l !! Z.to_nat i = Some x → (i < len l)%Z.
Proof.
  intros Hi Hl. apply lookup_lt_Some in Hl. unfold len. lia.
Qed.

(** Inside the bounds, [Column] is the lookup of the column's key
    followed by the switch on its type. *)
Lemma Column_in_range (cur : t) (c : SQLiteContext) (col : Z) row column :
  (0 ≤ pos cur)%Z → data cur !! Z.to_nat (pos cur) = Some row →
  (0 ≤ col)%Z → columns cur !! Z.to_nat col = Some column →
  Column c col cur =
    (match row !! Name column with
     | None => (c ++ [ResultNull], None)
     | Some value => coerce c (Name column) (Typ column) value
     end, cur).
Proof.
  intros Hp Hrow Hc Hcol. unfold Column.
  pose proof (len_lookup _ _ _ Hp Hrow) as Hp'.
  pose proof (len_lookup _ _ _ Hc Hcol) as Hc'.
  replace (pos cur <? 0)%Z with false by (symmetry; apply Z.ltb_ge; lia).
  replace (len (data cur) <=? pos cur)%Z with false
    by (symmetry; apply Z.leb_gt; lia).
  replace (col <? 0)%Z with false by (symmetry; apply Z.ltb_ge; lia).
  replace (len (columns cur) <=? col)%Z with false
    by (symmetry; apply Z.leb_gt; lia).
  simpl. rewrite Hrow, Hcol. by destruct (row !! Name column).
Qed.

Lemma Column_out_of_range (cur : t) (c : SQLiteContext) (col : Z) :
  (pos cur < 0 ∨ len (data cur) ≤ pos cur ∨ col < 0 ∨ len (columns cur) ≤ col)%Z →
  Column c col cur = ((c, Some CursorOutOfRange), cur).
Proof.
  intros Hout. unfold Column.
  destruct (pos cur <? 0)%Z eqn:E1; [done |].
  destruct (len (data cur) <=? pos cur)%Z eqn:E2; [done |].
  destruct (col <? 0)%Z eqn:E3; [done |].
  destruct (len (columns cur) <=? col)%Z eqn:E4; [done |].
  apply Z.ltb_ge in E1, E3. apply Z.leb_gt in E2, E4. lia.
Qed.

(** A float that is exactly an integer of the [int64] range converts to
    that integer. *)
Lemma int64_of_integer_float (v : float64) (z : Z) :
  float64_is_integer v z → in_int64 z = true → int64_of_float64 v = z.
Proof.
  unfold int64_of_float64, float64_is_integer, float64_trunc.
  destruct v as [s | s | | s m e]; simpl; intros Hz Hin; try done.
  revert Hz.
  destruct (0 <=? e)%Z; [intros -> | intros [_ ->]];
    destruct s; by rewrite Hin.
Qed.

(** [Next] moves to the following position as long as the position is
    below the largest [int]. *)
Lemma Next_pos (cur : t) :
  (0 ≤ pos cur < int_max)%Z → pos (Next cur).2 = (pos cur + 1)%Z.
Proof.
  unfold int_max. intros Hp. simpl. unfold wrap_int.
  rewrite Z.mod_small; lia.
Qed.

(** A scan visits the positions in order: after [Filter] and [k] advances
    the cursor is at position [k], over the same rows and columns. *)
Lemma advance_pos (k : nat) (cur : t) :
  (Z.of_nat k ≤ int_max)%Z →
  advance k cur = mk (tableName cur) (data cur) (Z.of_nat k) (columns cur).
Proof.
  unfold advance. induction k as [| k IH]; intros Hk; [done |].
  rewrite Nat.iter_succ, IH by lia. unfold Next, set_pos. simpl.
  f_equal. unfold wrap_int. unfold int_max in Hk. rewrite Z.mod_small; lia.
Qed.
End CursorProperties.

(** C6.  Cursor bounds.  Over a row set of [N] rows, [EOF] answers true
    exactly when the position is at least [N], so among the positions
    [0, 1, 2, ...] it answers false exactly at [0 .. N-1]; a scan, which is
    at position [k] after [k] advances, therefore meets the end after
    exactly [N] advances.  [Column] at a position outside [0 .. N-1]
    (position [N] in particular) or at a column index outside the declared
    columns fails with [CursorOutOfRange], setting no result and leaving
    the cursor as it was. *)
Theorem cursor_bounds {OS : Type} `{Host OS}
    (cur : InfiniCursor.t) (c : SQLiteContext) (col : Z) :
  let N := len (InfiniCursor.data cur) in
  let p := InfiniCursor.pos cur in
  ((InfiniCursor.EOF cur).1 = true ↔ (N ≤ p)%Z) ∧
  ((0 ≤ p)%Z ∧ (InfiniCursor.EOF cur).1 = false ↔ (0 ≤ p ≤ N - 1)%Z) ∧
  (InfiniCursor.EOF cur).2 = cur ∧
  (∀ k : nat, (Z.of_nat k ≤ int_max)%Z →
     InfiniCursor.pos (advance k cur) = Z.of_nat k
     ∧ ((InfiniCursor.EOF (advance k cur)).1 = false
        ↔ (k < length (InfiniCursor.data cur))%nat)) ∧
  ((p < 0 ∨ N ≤ p ∨ col < 0 ∨ len (InfiniCursor.columns cur) ≤ col)%Z →
   InfiniCursor.Column c col cur = ((c, Some CursorOutOfRange), cur)) ∧
  InfiniCursor.Column c col (InfiniCursor.set_pos N cur)
    = ((c, Some CursorOutOfRange), InfiniCursor.set_pos N cur).
Proof.
  intros N p. subst N p. simpl.
  split; [apply Z.leb_le |].
  split.
  { rewrite Z.leb_gt. lia. }
  split; [done |].
  split.
  { intros k Hk. rewrite advance_pos by done. simpl.
    split; [done |]. rewrite Z.leb_gt. unfold len. lia. }
  split; [apply Column_out_of_range |].
  apply Column_out_of_range. simpl. lia.
Qed.

(** C9.  At a valid position and column index, a row that holds the
    column's key with the JSON [null] does not read as null: [Column] sets
    no result and fails, with [TypeMismatch] for each of the four declared
    types (and with the unsupported-type error for any other type string);
    the cursor is left as it was. *)
Theorem Column_rejects_explicit_null {OS : Type} `{Host OS}
    (cur : InfiniCursor.t) (c : SQLiteContext) (col : Z)
    (row : Row) (column : Column) :
  (0 ≤ InfiniCursor.pos cur)%Z →
  InfiniCursor.data cur !! Z.to_nat (InfiniCursor.pos cur) = Some row →
  (0 ≤ col)%Z →
  InfiniCursor.columns cur !! Z.to_nat col = Some column →
  row !! Name column = Some VNil →
  (∃ err, InfiniCursor.Column c col cur = ((c, Some err), cur)) ∧
  (declared_type (Typ column) →
   InfiniCursor.Column c col cur
     = ((c, Some (TypeMismatch (Name column) (expected (Typ column)))), cur)).
Proof.
  intros Hp Hrow Hc Hcol Hnull.
  rewrite (Column_in_range cur c col row column Hp Hrow Hc Hcol), Hnull.
  unfold InfiniCursor.coerce. split.
  - repeat case_decide; eauto.
  - intros [-> | [-> | [-> | ->]]]; reflexivity.
Qed.

Lemma Column_rejects_explicit_null_witness :
  InfiniCursor.Column [] 0 null_age_cursor
    = (([], Some "type mismatch for age: expected integer"), null_age_cursor).
Proof.
  apply (Column_rejects_explicit_null (H := Sim.host) null_age_cursor [] 0
           {[ "age" := VNil ]} (mkColumn "age" "INTEGER" "" "age in years"));
    [ vm_compute; discriminate | reflexivity | lia | reflexivity | reflexivity
    | left; reflexivity ].
Defined.

(** C5, as the code has it.  At a valid position and column index [Column]
    leaves the cursor as it was, and: if the row lacks the column's key it
    sets the null result and returns no error; if the key is present it
    goes by the column's declared type.  INTEGER: a [float64] sets the
    integer [int64(v)], its integer part, which is [z] itself when the
    float is exactly an integer [z] of the [int64] range, and an [int64]
    sets itself; TEXT: a string sets that text; REAL: a [float64] sets
    that float; BLOB: a string or a byte sequence sets those bytes.  Any
    other value sets no result and fails with [TypeMismatch]. *)
Theorem Column_coerces_by_declared_type {OS : Type} `{Host OS}
    (cur : InfiniCursor.t) (c : SQLiteContext) (col : Z)
    (row : Row) (column : Column) :
  (0 ≤ InfiniCursor.pos cur)%Z →
  InfiniCursor.data cur !! Z.to_nat (InfiniCursor.pos cur) = Some row →
  (0 ≤ col)%Z →
  InfiniCursor.columns cur !! Z.to_nat col = Some column →
  let out := InfiniCursor.Column c col cur in
  let name := Name column in
  let mismatch := (c, Some (TypeMismatch name (expected (Typ column)))) in
  out.2 = cur
  ∧ (row !! name = None → out.1 = (c ++ [ResultNull], None))
  ∧ (∀ value, row !! name = Some value →
       (Typ column = "INTEGER" →
          match value with
          | VFloat64 v =>
              out.1 = (c ++ [ResultInt64 (int64_of_float64 v)], None)
              ∧ (∀ z, float64_trunc v = Some z → in_int64 z = true →
                      int64_of_float64 v = z)
              ∧ (∀ z, float64_is_integer v z → in_int64 z = true →
                      int64_of_float64 v = z)
          | VInt64 v => out.1 = (c ++ [ResultInt64 v], None)
          | _ => out.1 = mismatch
          end)
       ∧ (Typ column = "TEXT" →
          match value with
          | VString v => out.1 = (c ++ [ResultText v], None)
          | _ => out.1 = mismatch
          end)
       ∧ (Typ column = "REAL" →
          match value with
          | VFloat64 v => out.1 = (c ++ [ResultDouble v], None)
          | _ => out.1 = mismatch
          end)
       ∧ (Typ column = "BLOB" →
          match value with
          | VString v | VBytes v => out.1 = (c ++ [ResultBlob v], None)
          | _ => out.1 = mismatch
          end)).
Proof.
  intros Hp Hrow Hc Hcol out name mismatch. subst out mismatch.
  rewrite (Column_in_range cur c col row column Hp Hrow Hc Hcol). fold name.
  split; [done |]. split; [by intros -> |].
  intros value ->. unfold InfiniCursor.coerce. simpl.
  split; [| split; [| split]]; intros ->; simpl; destruct value; try reflexivity.
  split; [reflexivity |]. split.
  - intros z Hz Hin. unfold int64_of_float64. by rewrite Hz, Hin.
  - apply int64_of_integer_float.
Qed.

Lemma Column_coerces_by_declared_type_witness :
  InfiniCursor.Column [] 2 users_cursor = (([ResultNull], None), users_cursor)
  ∧ InfiniCursor.Column [] 1 users_cursor = (([ResultText "Alan"], None), users_cursor)
  ∧ InfiniCursor.Column [] 0 users_cursor = (([ResultInt64 2], None), users_cursor).
Proof.
  pose (row := {[ "id" := VFloat64 Sim.float_2; "name" := VString "Alan" ]} : Row).
  destruct (Column_coerces_by_declared_type (H := Sim.host) users_cursor [] 2 row
              (mkColumn "age" "INTEGER" "" "age in years"))
    as (Hcur2 & Hnull & _);
    [ vm_compute; discriminate | reflexivity | lia | reflexivity | ].
  destruct (Column_coerces_by_declared_type (H := Sim.host) users_cursor [] 1 row
              (mkColumn "name" "TEXT" "" "full name"))
    as (Hcur1 & _ & Hname);
    [ vm_compute; discriminate | reflexivity | lia | reflexivity | ].
  destruct (Column_coerces_by_declared_type (H := Sim.host) users_cursor [] 0 row
              (mkColumn "id" "INTEGER" "PRIMARY KEY" "identifier"))
    as (Hcur0 & _ & Hid);
    [ vm_compute; discriminate | reflexivity | lia | reflexivity | ].
  split; [| split].
  - rewrite (surjective_pairing (InfiniCursor.Column [] 2 users_cursor)).
    by rewrite Hcur2, (Hnull eq_refl).
  - rewrite (surjective_pairing (InfiniCursor.Column [] 1 users_cursor)).
    destruct (Hname (VString "Alan") eq_refl) as (_ & Htext & _).
    by rewrite Hcur1, (Htext eq_refl).
  - rewrite (surjective_pairing (InfiniCursor.Column [] 0 users_cursor)).
    destruct (Hid (VFloat64 Sim.float_2) eq_refl) as (Hint & _).
    destruct (Hint eq_refl) as (Hout & _). by rewrite Hcur0, Hout.
Defined.

(** C5 as stated fails: the age 30.5 is no integer-valued number, yet the
    INTEGER column reads it without error, as the integer 30. *)
Lemma Column_truncates_fraction :
  (¬ ∃ z, float64_is_integer Sim.float_30_5 z)
  ∧ is_float64 Sim.float_30_5 = true
  ∧ InfiniCursor.Column [] 0 fractional_age_cursor
    = (([ResultInt64 30], None), fractional_age_cursor).
Proof.
  split; [| split; reflexivity].
  intros [z Hz]. vm_compute in Hz. by destruct Hz.
Qed.

(** * Properties of the schema validation *)

Lemma generator_calls_app (tr1 tr2 : list Call) :
  generator_calls (tr1 ++ tr2) = generator_calls tr1 + generator_calls tr2.
Proof. unfold generator_calls. by rewrite filter_app, length_app. Qed.

Lemma file_writes_app (tr1 tr2 : list Call) :
  file_writes (tr1 ++ tr2) = file_writes tr1 ++ file_writes tr2.
Proof. unfold file_writes. by rewrite filter_app. Qed.

Lemma mark_lookup (names : list string) (seen : gmap string bool) (name : string) :
  default false (mark names seen !! name) = true
  ↔ name ∈ names ∨ default false (seen !! name) = true.
Proof.
  revert seen. induction names as [| n names IH]; intros seen; simpl.
  - rewrite elem_of_nil. tauto.
  - rewrite IH, elem_of_cons. destruct (decide (n = name)) as [-> | Hne].
    + rewrite lookup_insert_eq. simpl. tauto.
    + rewrite lookup_insert_ne by done. split; [tauto |].
      intros [[Heq | Hin] | Hs]; [congruence | tauto | tauto].
  Qed.

Lemma validTypes_lookup (type : string) :
  default false (InfiniDBModule.validTypes !! type) = true ↔ declared_type type.
Proof.
  unfold InfiniDBModule.validTypes, declared_type.
  rewrite !lookup_insert. repeat case_decide; subst; simpl;
    try rewrite lookup_empty; simpl; split; try tauto; try done.
  intros [? | [? | [? | ?]]]; congruence.
Qed.

(** A well-formed prefix passes the loop, which goes on with its names
    marked. *)
Lemma validateColumns_prefix (seen : gmap string bool) (pre rest : list Column) :
  prefix_ok pre →
  (∀ col, col ∈ pre → default false (seen !! Name col) = false) →
  InfiniDBModule.validateColumns seen (pre ++ rest)
  = InfiniDBModule.validateColumns (mark (Name <$> pre) seen) rest.
Proof.
  revert seen. induction pre as [| col pre IH]; intros seen [Hall Hnd] Hseen; [done |].
  apply Forall_cons in Hall as [[Hname Htype] Hall].
  rewrite fmap_cons in Hnd. apply NoDup_cons in Hnd as [Hnotin Hnd].
  simpl. rewrite bool_decide_eq_false_2 by done.
  rewrite (Hseen col) by (apply elem_of_cons; by left). simpl.
  apply validTypes_lookup in Htype. rewrite Htype. simpl.
  apply IH; [done |].
  intros col' Hin. destruct (decide (Name col = Name col')) as [Heq | Hne].
  - exfalso. apply Hnotin. rewrite Heq. apply list_elem_of_fmap. eauto.
  - rewrite lookup_insert_ne by done. apply Hseen, elem_of_cons. by right.
Qed.

(** The verdict of the loop on the first column after a well-formed
    prefix. *)
Lemma validateColumns_first_offender (pre : list Column) (col : Column)
    (post : list Column) :
  prefix_ok pre →
  (Name col = "" ∨ Name col ∈ Name <$> pre →
   InfiniDBModule.validateColumns ∅ (pre ++ col :: post)
   = Some (DuplicateColumn (Name col))) ∧
  (Name col ≠ "" → Name col ∉ Name <$> pre → ¬ declared_type (Typ col) →
   InfiniDBModule.validateColumns ∅ (pre ++ col :: post)
   = Some (InvalidType (Typ col) (Name col))).
Proof.
  intros Hpre.
  rewrite validateColumns_prefix by (done || (intros; by rewrite lookup_empty)).
  simpl.
  pose proof (mark_lookup (Name <$> pre) ∅ (Name col)) as Hmark.
  rewrite lookup_empty in Hmark. simpl in Hmark.
  split.
  - intros [Hempty | Hdup].
    + by rewrite bool_decide_eq_true_2.
    + replace (default false (mark (Name <$> pre) ∅ !! Name col)) with true
        by (symmetry; apply Hmark; by left).
      by rewrite orb_true_r.
  - intros Hname Hfresh Htype.
    rewrite bool_decide_eq_false_2 by done.
    rewrite (not_true_is_false (default false (mark (Name <$> pre) ∅ !! Name col)))
      by (intros E; apply Hmark in E as [? | ?]; done).
    simpl.
    destruct (default false (InfiniDBModule.validTypes !! Typ col)) eqn:E'; [| done].
    exfalso. by apply Htype, validTypes_lookup.
Qed.

Lemma validateColumns_well_formed (columns : list Column) :
  InfiniDBModule.validateColumns ∅ columns = None ↔ prefix_ok columns.
Proof.
  split.
  - assert (∀ seen, InfiniDBModule.validateColumns seen columns = None →
              prefix_ok columns
              ∧ ∀ col, col ∈ columns → default false (seen !! Name col) = false)
      as Hgen; [| intros Hv; by apply (Hgen ∅)].
    induction columns as [| col columns IH]; intros seen Hv.
    { split; [split; constructor | intros ? Hin; by apply elem_of_nil in Hin]. }
    simpl in Hv.
    destruct (bool_decide (Name col = "")) eqn:E1; [done |].
    destruct (default false (seen !! Name col)) eqn:E2; [done |].
    simpl in Hv.
    destruct (default false (InfiniDBModule.validTypes !! Typ col)) eqn:E3; [| done].
    simpl in Hv. apply IH in Hv as [[Hall Hnd] Hseen].
    apply bool_decide_eq_false in E1. apply validTypes_lookup in E3.
    assert (Name col ∉ Name <$> columns) as Hnotin.
    { intros Hin. apply list_elem_of_fmap in Hin as [col' [Heq Hin]].
      specialize (Hseen col' Hin). rewrite <- Heq, lookup_insert_eq in Hseen.
      done. }
    split; [split |].
    + by constructor.
    + rewrite fmap_cons. by constructor.
    + intros col' Hin. apply elem_of_cons in Hin as [-> | Hin]; [done |].
      specialize (Hseen col' Hin).
      destruct (decide (Name col = Name col')) as [Heq | Hne].
      * rewrite Heq, lookup_insert_eq in Hseen. done.
      * by rewrite lookup_insert_ne in Hseen.
  - intros Hok.
    pose proof (validateColumns_prefix ∅ columns [] Hok) as Hp.
    rewrite app_nil_r in Hp. rewrite Hp; [done |].
    intros. by rewrite lookup_empty.
Qed.

(** * Properties of the module and of the table handle *)

Section ModuleProperties.
Context {OS : Type} `{Host OS}.

Lemma len_nil_iff {A} (l : list A) : len l = 0%Z ↔ l = [].
Proof. unfold len. destruct l; simpl; split; intros; try done; lia. Qed.

Lemma resolveColumns_hit (p : Process OS) (name desc : string) cached :
  schemaCache p !! name = Some cached →
  InfiniDBModule.resolveColumns name desc p = (Returns (Ok cached), p).
Proof. intros Hhit. go_unfold. by rewrite Hhit. Qed.

(** On a miss, the resolution calls the generator at most once, writes no
    file, declares nothing, and either stores the whole column set of a
    parsed answer, validated, or leaves the cache as it was. *)
Lemma resolveColumns_miss_inv (p : Process OS) (name desc : string) o p' :
  schemaCache p !! name = None →
  InfiniDBModule.resolveColumns name desc p = (o, p') →
  ∃ calls, trace p' = trace p ++ calls ∧
    Forall (λ c, is_file_write c = false ∧ is_declare c = false) calls ∧
    ((∃ cols, o = Returns (Ok cols)
        ∧ schemaCache p' = <[name := cols]> (schemaCache p)
        ∧ well_formed_columns cols ∧ (generator_calls calls = 1)%nat
        ∧ ∃ content tableSchema,
            json_Unmarshal_TableSchema content = Ok tableSchema
            ∧ cols = Columns tableSchema)
     ∨ ((∀ cols, o ≠ Returns (Ok cols))
        ∧ schemaCache p' = schemaCache p ∧ (generator_calls calls ≤ 1)%nat)).
Proof.
  intros Hmiss Hrun. go_unfold. rewrite Hmiss in Hrun.
  go_cases Hrun; trace_extends; (split; [repeat constructor |]).
  all: try (right; split; [intros ? ?; discriminate
                          | split; [reflexivity | compute; lia]]).
  left. eexists. split; [reflexivity |]. split; [reflexivity |].
  split; [| split; [reflexivity | eauto]].
  split; [by rewrite <- len_nil_iff | by apply validateColumns_well_formed].
Qed.

(** What the generator's answer decides, on a miss. *)
Lemma resolveColumns_reply (p : Process OS) (name desc : string) ts w :
  schema_reply p name desc ts w →
  ∃ calls, (generator_calls calls = 1)%nat ∧
    Forall (λ c, is_file_write c = false ∧ is_declare c = false) calls ∧
    let p1 := mkProcess (schemaCache p) w (trace p ++ calls) in
    InfiniDBModule.resolveColumns name desc p =
      if decide (len (Columns ts) = 0%Z) then (Returns (Err EmptySchema), p1)
      else match InfiniDBModule.validateColumns ∅ (Columns ts) with
           | Some err => (Returns (Err err), p1)
           | None => (Returns (Ok (Columns ts)),
                      mkProcess (<[name := Columns ts]> (schemaCache p)) w
                        (trace p ++ calls))
           end.
Proof.
  intros (Hmiss & Hkey & tmpl & prompt & content & rest & Htmpl & Hexec & Hchat & Hjson).
  exists [CallGetenv "OPENAI_API_KEY"; CallParseFiles "prompts/schema_generation.txt";
          CallChat (schemaRequest prompt)].
  split; [reflexivity |]. split; [repeat constructor |].
  unfold schemaRequest in *.
  go_unfold. unfold record. rewrite Hmiss. simpl. rewrite decide_False by done.
  simpl. rewrite Htmpl. simpl. rewrite Hexec. simpl. rewrite Hchat. simpl.
  rewrite Hjson. rewrite <- !app_assoc. simpl.
  destruct (decide (len (Columns ts) = 0%Z)); [done |].
  by destruct (InfiniDBModule.validateColumns ∅ (Columns ts)).
Qed.

(** [Connect] with enough arguments is the resolution followed by the
    declaration of the schema. *)
Lemma Connect_unfold (p : Process OS) (args : list string) :
  (4 ≤ len args)%Z →
  InfiniDBModule.Connect args p =
    match InfiniDBModule.resolveColumns (nth 2 args "") (nth 3 args "") p with
    | (Returns (Ok cols), p1) =>
        let schema := InfiniDBModule.schemaString cols in
        let '(err, w) := sqlite_DeclareVTab schema (world p1) in
        (Returns (match err with
                  | Some err => Err err
                  | None => Ok (InfiniTable.mk (nth 2 args "") (nth 3 args "") cols)
                  end),
         record (CallDeclareVTab schema) w p1)
    | (Returns (Err err), p1) => (Returns (Err err), p1)
    | (Panics msg, p1) => (Panics msg, p1)
    end.
Proof.
  intros Hlen. unfold InfiniDBModule.Connect.
  rewrite decide_False by lia.
  unfold mbind, Go_bind, go_bind, mret, Go_ret, go_ret, DeclareVTab.
  destruct (InfiniDBModule.resolveColumns _ _ p) as [[[cols | err] | msg] p1]; try done.
  simpl. by destruct (sqlite_DeclareVTab _ _) as [[err |] w].
Qed.
End ModuleProperties.

Section OpenProperties.
Context {OS : Type} `{Host OS}.

(** What one [Open] does: the schema cache is not touched, the generator
    is called at most once, and a failure writes no file.  A success serves
    either the whole row set parsed from the cache file, with no generator
    call and no write, or the whole, non-empty row set of a parsed answer
    of the generator, writing at most the cache file of the table, with
    the encoding of exactly those rows. *)
Lemma Open_inv (p : Process OS) (vt : InfiniTable.t) o p' :
  InfiniTable.Open vt p = (o, p') →
  let w1 := (os_MkdirAll ".cache" (world p)).2 in
  let file := cacheFile (InfiniTable.tableName vt) in
  schemaCache p' = schemaCache p ∧
  ∃ calls, trace p' = trace p ++ calls ∧
    (generator_calls calls ≤ 1)%nat ∧
    ((∀ cur, o ≠ Returns (Ok cur)) → file_writes calls = []) ∧
    (∀ cur, o = Returns (Ok cur) →
       cur = InfiniTable.newCursor vt (InfiniCursor.data cur) ∧
       ((∃ fileData,
           os_ReadFile file w1 = Ok fileData
           ∧ json_Unmarshal_rows fileData = Ok (InfiniCursor.data cur)
           ∧ generator_calls calls = 0%nat
           ∧ file_writes calls = [])
        ∨ (∃ content dataResp,
             json_Unmarshal_DataResponse content = Ok dataResp
             ∧ InfiniCursor.data cur = Rows dataResp
             ∧ InfiniCursor.data cur ≠ []
             ∧ generator_calls calls = 1%nat
             ∧ (file_writes calls = []
                ∨ ∃ jsonData,
                    json_Marshal_rows (InfiniCursor.data cur) = Ok jsonData
                    ∧ file_writes calls = [CallWriteFile file jsonData])))).
Proof.
  intros Hrun w1 file. subst w1 file. go_unfold. unfold cacheFile.
  go_cases Hrun; (split; [reflexivity |]); trace_extends;
    (split; [compute; lia |]); (split; [try reflexivity |]).
  all: try (intros Hfail; exfalso; by eapply Hfail).
  all: intros cur [= <-]; (split; [reflexivity |]); simpl.
  all: first
    [ left; eexists; (split; [eassumption |]); (split; [eassumption |]);
      split; reflexivity
    | right; eexists _, _; (split; [eassumption |]); (split; [reflexivity |]);
      (split; [by rewrite <- len_nil_iff |]); (split; [reflexivity |]);
      first [ left; reflexivity
            | right; eexists; split; [eassumption | reflexivity] ] ].
Qed.
End OpenProperties.

Section ConnectProperties.
Context {OS : Type} `{Host OS}.

(** What one [Connect] with enough arguments does to the cache and to the
    trace, according to whether the name was cached. *)
Lemma Connect_inv (p : Process OS) (args : list string) o p' :
  (4 ≤ len args)%Z →
  InfiniDBModule.Connect args p = (o, p') →
  let name := nth 2 args "" in
  let desc := nth 3 args "" in
  match schemaCache p !! name with
  | Some cached =>
      trace p' = trace p ++ [CallDeclareVTab (InfiniDBModule.schemaString cached)]
      ∧ schemaCache p' = schemaCache p
      ∧ ∀ vt, o = Returns (Ok vt) → vt = InfiniTable.mk name desc cached
  | None =>
      ∃ calls, trace p' = trace p ++ calls ∧
        Forall (λ c, is_file_write c = false) calls ∧
        ((∃ cols, schemaCache p' = <[name := cols]> (schemaCache p)
            ∧ well_formed_columns cols
            ∧ (generator_calls calls = 1)%nat
            ∧ last calls = Some (CallDeclareVTab (InfiniDBModule.schemaString cols))
            ∧ ∀ vt, o = Returns (Ok vt) → vt = InfiniTable.mk name desc cols)
         ∨ ((∀ vt, o ≠ Returns (Ok vt))
            ∧ schemaCache p' = schemaCache p
            ∧ (generator_calls calls ≤ 1)%nat
            ∧ Forall (λ c, is_declare c = false) calls))
  end.
Proof.
  intros Hlen Hrun name desc. rewrite Connect_unfold in Hrun by done.
  fold name desc in Hrun.
  destruct (schemaCache p !! name) as [cached |] eqn:Hcache.
  - rewrite (resolveColumns_hit p name desc cached Hcache) in Hrun.
    simpl in Hrun. destruct (sqlite_DeclareVTab _ _) as [err w].
    injection Hrun as <- <-. simpl. split; [done |]. split; [done |].
    intros vt Hvt. destruct err; congruence.
  - destruct (InfiniDBModule.resolveColumns name desc p) as [o1 p1] eqn:Hres.
    destruct (resolveColumns_miss_inv p name desc o1 p1 Hcache Hres)
      as (calls & Htrace & Hcalls
          & [(cols & -> & Hstore & Hwf & Hgen & _) | (Hfail & Hsame & Hgen)]).
    + simpl in Hrun. destruct (sqlite_DeclareVTab _ _) as [err w].
      injection Hrun as <- <-.
      exists (calls ++ [CallDeclareVTab (InfiniDBModule.schemaString cols)]).
      simpl. rewrite Htrace, <- app_assoc. split; [done |].
      split.
      { apply Forall_app. split; [| by repeat constructor].
        eapply Forall_impl; [exact Hcalls | by intros ? [? ?]]. }
      left. exists cols. rewrite generator_calls_app, Hgen, last_snoc.
      split; [done |]. split; [done |]. split; [done |]. split; [done |].
      intros vt Hvt. destruct err; congruence.
    + exists calls. split; [| split].
      * destruct o1 as [[cols | err] | msg]; [by destruct (Hfail cols) | |];
          by injection Hrun as <- <-.
      * eapply Forall_impl; [exact Hcalls | by intros ? [? ?]].
      * right. destruct o1 as [[cols | err] | msg]; [by destruct (Hfail cols) | |];
          injection Hrun as <- <-;
          (split; [done |]; split; [done |]; split; [done |]);
          (eapply Forall_impl; [exact Hcalls | by intros ? [? ?]]).
Qed.
End ConnectProperties.

(** C10.  With fewer than four module arguments (so without a table name
    as third argument or a description as fourth) [Connect], and [Create]
    with it, fails with an error and leaves the process as it was: the
    schema cache is not touched and nothing is called, the generator
    included. *)
Theorem Connect_needs_name_and_description {OS : Type} `{Host OS}
    (p : Process OS) (args : list string) :
  (len args < 4)%Z →
  InfiniDBModule.Connect args p = (Returns (Err "missing table name argument"), p)
  ∧ InfiniDBModule.Create args p = (Returns (Err "missing table name argument"), p).
Proof.
  intros Hlen. unfold InfiniDBModule.Create, InfiniDBModule.Connect.
  by rewrite decide_True.
Qed.

Lemma Connect_needs_name_and_description_witness :
  let p := Sim.boot (Sim.mk Sim.with_key ∅ [Ok ["users.schema"]] true) in
  InfiniDBModule.Connect ["infinidb"; "main"; "users"] p
  = (Returns (Err "missing table name argument"), p).
Proof.
  intros p.
  apply (Connect_needs_name_and_description p ["infinidb"; "main"; "users"]).
  reflexivity.
Defined.

Section Sessions.
Context {OS : Type} `{Host OS}.

(** The consequences of [Connect_inv] that do not depend on the case. *)
Lemma Connect_summary (p : Process OS) (args : list string) o p' :
  (4 ≤ len args)%Z →
  InfiniDBModule.Connect args p = (o, p') →
  let name := nth 2 args "" in
  (generator_calls (trace p) ≤ generator_calls (trace p')
   ≤ generator_calls (trace p) + 1)%nat
  ∧ (∀ vt, o = Returns (Ok vt) →
       schemaCache p' !! name = Some (InfiniTable.columns vt))
  ∧ (∀ cached, schemaCache p !! name = Some cached →
       trace p' = trace p ++ [CallDeclareVTab (InfiniDBModule.schemaString cached)]
       ∧ generator_calls (trace p') = generator_calls (trace p)
       ∧ schemaCache p' = schemaCache p
       ∧ ∀ vt, o = Returns (Ok vt) → InfiniTable.columns vt = cached).
Proof.
  intros Hlen Hrun name.
  pose proof (Connect_inv p args o p' Hlen Hrun) as Hinv. simpl in Hinv.
  fold name in Hinv.
  destruct (schemaCache p !! name) as [cached |] eqn:Hcache.
  - destruct Hinv as (Htrace & Hsame & Hvt).
    assert (generator_calls (trace p') = generator_calls (trace p)) as Hgen.
    { rewrite Htrace, generator_calls_app.
      change (generator_calls [CallDeclareVTab _]) with 0%nat. lia. }
    split; [lia |]. split.
    + intros vt ->. rewrite Hsame, Hcache. by rewrite (Hvt _ eq_refl).
    + intros ? [= <-]. repeat split; try done.
      intros vt ->. by rewrite (Hvt _ eq_refl).
  - destruct Hinv as (calls & Htrace & _ & [(cols & Hstore & _ & Hgen & _ & Hvt)
                                          | (Hfail & _ & Hgen & _)]).
    + split; [rewrite Htrace, generator_calls_app; lia |].
      split; [| done].
      intros vt ->. rewrite Hstore, lookup_insert_eq. by rewrite (Hvt _ eq_refl).
    + split; [rewrite Htrace, generator_calls_app; lia |].
      split; [| done]. intros vt ->. by destruct (Hfail vt).
Qed.

(** An entry of the schema cache is never replaced or removed. *)
Lemma perform_keeps_entry (op : Operation) (p : Process OS) name cols :
  schemaCache p !! name = Some cols →
  schemaCache (perform op p) !! name = Some cols.
Proof.
  intros Hentry. destruct op as [args | vt]; simpl.
  - destruct (InfiniDBModule.Connect args p) as [o p'] eqn:Hrun. simpl.
    destruct (decide (len args < 4)%Z) as [Hshort | Hlen].
    { unfold InfiniDBModule.Connect in Hrun. rewrite decide_True in Hrun by done.
      by injection Hrun as _ <-. }
    pose proof (Connect_inv p args o p' ltac:(lia) Hrun) as Hinv. simpl in Hinv.
    destruct (schemaCache p !! nth 2 args "") as [cached |] eqn:Hcache.
    + destruct Hinv as (_ & -> & _). done.
    + destruct Hinv as (calls & _ & _ & [(cols' & -> & _) | (_ & -> & _)]); [| done].
      rewrite lookup_insert_ne; [done |]. intros <-. congruence.
  - destruct (InfiniTable.Open vt p) as [o p'] eqn:Hrun. simpl.
    destruct (Open_inv p vt o p' Hrun) as [-> _]. done.
Qed.

Lemma session_keeps_entry (ops : list Operation) (p : Process OS) name cols :
  schemaCache p !! name = Some cols →
  schemaCache (session ops p) !! name = Some cols.
Proof.
  unfold session. revert p.
  induction ops as [| op ops IH]; intros p Hentry; [done |].
  simpl. by apply IH, perform_keeps_entry.
Qed.

(** A [Connect] leaves the schema cache as it was or adds one validated
    column set, under the name of the table, which it then declares. *)
Lemma Connect_cache_effect (p : Process OS) (args : list string) o p' :
  InfiniDBModule.Connect args p = (o, p') →
  schemaCache p' = schemaCache p
  ∨ ∃ cols, well_formed_columns cols
      ∧ schemaCache p' = <[nth 2 args "" := cols]> (schemaCache p)
      ∧ last (trace p')
        = Some (CallDeclareVTab (InfiniDBModule.schemaString cols)).
Proof.
  intros Hrun.
  destruct (decide (len args < 4)%Z) as [Hshort | Hlen].
  { unfold InfiniDBModule.Connect in Hrun. rewrite decide_True in Hrun by done.
    injection Hrun as _ <-. by left. }
  pose proof (Connect_inv p args o p' ltac:(lia) Hrun) as Hinv. simpl in Hinv.
  destruct (schemaCache p !! nth 2 args "") as [cached |].
  - left. by destruct Hinv as (_ & ? & _).
  - destruct Hinv as (calls & Htrace & _ & [(cols & Hstore & Hwf & _ & Hlast & _)
                                          | (_ & Hsame & _)]); [right | by left].
    exists cols. split; [done |]. split; [done |].
    rewrite Htrace. destruct calls as [| c calls] using rev_ind; [done |].
    rewrite last_snoc in Hlast. rewrite app_assoc, last_snoc. done.
Qed.

Lemma perform_cache_valid (op : Operation) (p : Process OS) :
  cache_valid p → cache_valid (perform op p).
Proof.
  intros Hvalid. destruct op as [args | vt]; simpl.
  - destruct (InfiniDBModule.Connect args p) as [o p'] eqn:Hrun. simpl.
    destruct (Connect_cache_effect p args o p' Hrun) as [Hsame | (cols & Hwf & Hstore & _)];
      intros name columns; [rewrite Hsame; by apply Hvalid |].
    rewrite Hstore. destruct (decide (nth 2 args "" = name)) as [-> | Hne].
    + rewrite lookup_insert_eq. by intros [= <-].
    + rewrite lookup_insert_ne by done. by apply Hvalid.
  - destruct (InfiniTable.Open vt p) as [o p'] eqn:Hrun. simpl.
    destruct (Open_inv p vt o p' Hrun) as [Hsame _].
    intros name columns. rewrite Hsame. by apply Hvalid.
Qed.

(** The invariant of the schema cache, by induction on the requests. *)
Lemma session_cache_valid (ops : list Operation) (p : Process OS) :
  cache_valid p → cache_valid (session ops p).
Proof.
  unfold session. revert p.
  induction ops as [| op ops IH]; intros p Hvalid; [done |].
  simpl. by apply IH, perform_cache_valid.
Qed.
End Sessions.




(** A non-empty column set is well formed or has a first offending column:
    one with a bad name, or with a good name and an undeclared type, after
    a well-formed prefix. *)
Lemma first_offender_exists (columns : list Column) :
  prefix_ok columns
  ∨ ∃ pre col post, columns = pre ++ col :: post ∧ prefix_ok pre ∧
      ((Name col = "" ∨ Name col ∈ (Name <$> pre))
       ∨ (Name col ≠ "" ∧ (Name col ∉ (Name <$> pre)) ∧ ¬ declared_type (Typ col))).
Proof.
  induction columns as [| col columns IH] using rev_ind.
  { left. split; constructor. }
  destruct IH as [Hok | (pre & bad & post & -> & Hpre & Hbad)].
  - destruct (decide (Name col = "")) as [Hempty | Hname].
    { right. exists columns, col, []. eauto. }
    destruct (decide (Name col ∈ Name <$> columns)) as [Hdup | Hfresh].
    { right. exists columns, col, []. eauto. }
    destruct (default false (InfiniDBModule.validTypes !! Typ col)) eqn:Htype.
    + left. apply validTypes_lookup in Htype. destruct Hok as [Hall Hnd].
      split.
      * apply Forall_app. split; [done |]. constructor; [done | constructor].
      * rewrite fmap_app. apply NoDup_app. split; [done |].
        split; [| by apply NoDup_singleton].
        intros name Hin Hin'. apply list_elem_of_singleton in Hin'. by subst.
    + right. exists columns, col, []. split; [done |]. split; [done |].
      right. split; [done |]. split; [done |].
      intros Hdecl. apply validTypes_lookup in Hdecl. congruence.
  - right. exists pre, bad, (post ++ [col]).
    by rewrite <- app_assoc.
Qed.

(** C2, as the code has it.  When the generator's answer parses to a
    schema, [Connect] rejects it, caching nothing, with [EmptySchema] if it
    has no column, and otherwise with the error of its first offending
    column, in sequence order, after a well-formed prefix:
    [DuplicateColumn] if that column's name is empty or repeats an earlier
    one, [InvalidType] if its name is fresh and non-empty and its type is
    not one of INTEGER, TEXT, REAL, BLOB.  These cases and the well-formed
    column sets cover every answer; a well-formed column set passes the
    validation and is stored in the schema cache. *)
Theorem schema_validation_first_offender {OS : Type} `{Host OS}
    (p : Process OS) (args : list string) (tableSchema : TableSchema) (w : OS) :
  (4 ≤ len args)%Z →
  schema_reply p (nth 2 args "") (nth 3 args "") tableSchema w →
  let columns := Columns tableSchema in
  let rejected := λ err : error,
    ∃ p1, InfiniDBModule.Connect args p = (Returns (Err err), p1)
          ∧ schemaCache p1 = schemaCache p in
  (columns = [] → rejected EmptySchema)
  ∧ (∀ pre col post, columns = pre ++ col :: post → prefix_ok pre →
       (Name col = "" ∨ Name col ∈ (Name <$> pre) →
        rejected (DuplicateColumn (Name col)))
       ∧ (Name col ≠ "" → Name col ∉ (Name <$> pre) → ¬ declared_type (Typ col) →
          rejected (InvalidType (Typ col) (Name col))))
  ∧ (well_formed_columns columns →
       ∃ p1, InfiniDBModule.resolveColumns (nth 2 args "") (nth 3 args "") p
             = (Returns (Ok columns), p1)
             ∧ schemaCache p1 = <[nth 2 args "" := columns]> (schemaCache p)
             ∧ schemaCache (InfiniDBModule.Connect args p).2
               = <[nth 2 args "" := columns]> (schemaCache p))
  ∧ (columns = [] ∨ well_formed_columns columns
     ∨ ∃ pre col post, columns = pre ++ col :: post ∧ prefix_ok pre ∧
         ((Name col = "" ∨ Name col ∈ (Name <$> pre))
          ∨ (Name col ≠ "" ∧ (Name col ∉ (Name <$> pre))
             ∧ ¬ declared_type (Typ col)))).
Proof.
  intros Hlen Hreply columns rejected.
  destruct (resolveColumns_reply p _ _ tableSchema w Hreply)
    as (calls & _ & _ & Hres). simpl in Hres. fold columns in Hres.
  assert (∀ err, columns ≠ [] →
            InfiniDBModule.validateColumns ∅ columns = Some err → rejected err)
    as Hreject.
  { intros err Hne Hv. unfold rejected. rewrite Connect_unfold, Hres by done.
    rewrite decide_False by (by rewrite len_nil_iff). rewrite Hv. eauto. }
  split; [| split; [| split]].
  - intros Hnil. unfold rejected. rewrite Connect_unfold, Hres by done.
    rewrite decide_True by (by rewrite len_nil_iff). eauto.
  - intros pre col post Hcols Hpre.
    assert (columns ≠ []) as Hne by (rewrite Hcols; by destruct pre).
    destruct (validateColumns_first_offender pre col post Hpre) as [Hdup Htype].
    rewrite <- Hcols in Hdup, Htype. split.
    + intros Hbad. apply Hreject; auto.
    + intros Hname Hfresh Hundeclared. apply Hreject; auto.
  - intros [Hne Hok]. apply validateColumns_well_formed in Hok.
    rewrite Connect_unfold, Hres by done.
    rewrite decide_False by (by rewrite len_nil_iff). rewrite Hok.
    eexists. split; [reflexivity |]. split; [reflexivity |].
    simpl. by destruct (sqlite_DeclareVTab _ _).
  - destruct columns as [| col columns'] eqn:Hcols; [by left | right].
    destruct (first_offender_exists (col :: columns')) as [Hok | Hbad].
    + left. by split.
    + by right.
Qed.

Lemma schema_validation_first_offender_witness :
  ∃ p1, InfiniDBModule.Connect ["infinidb"; "main"; "t"; "a table"]
          (Sim.boot (Sim.mk Sim.with_key ∅ [Ok ["clash.schema"]] true))
        = (Returns (Err (InvalidType "VARCHAR" "a")), p1)
        ∧ schemaCache p1 = ∅.
Proof.
  pose (w := Sim.mk Sim.with_key ∅ [Ok ["clash.schema"]] true).
  destruct (schema_validation_first_offender (Sim.boot w)
              ["infinidb"; "main"; "t"; "a table"]
              (mkTableSchema Sim.clash_columns) (Sim.mk Sim.with_key ∅ [] true))
    as (_ & Hfirst & _).
  - vm_compute. discriminate.
  - split; [reflexivity |]. split; [vm_compute; discriminate |].
    do 4 eexists. repeat split.
  - destruct (Hfirst [] (mkColumn "a" "VARCHAR" "" "")
                [mkColumn "a" "TEXT" "" ""]) as [_ Htype].
    + reflexivity.
    + split; constructor.
    + apply Htype.
      * discriminate.
      * apply not_elem_of_nil.
      * intros [? | [? | [? | ?]]]; discriminate.
Defined.

(** C2 as stated fails: in this answer the second column repeats the name
    of the first, yet the rejection is not [DuplicateColumn]: the first
    column, whose type is not a declared one, is met first. *)
Lemma repeated_name_reported_as_invalid_type :
  Name <$> Sim.clash_columns = ["a"; "a"]
  ∧ (InfiniDBModule.Connect ["infinidb"; "main"; "t"; "a table"]
       (Sim.boot (Sim.mk Sim.with_key ∅ [Ok ["clash.schema"]] true))).1
    = Returns (Err (InvalidType "VARCHAR" "a"))
  ∧ InvalidType "VARCHAR" "a" ≠ DuplicateColumn "a".
Proof. vm_compute. repeat split. discriminate. Qed.


(** C3.  If, when [Open] reads it, the cache file of the table is readable
    and parses as a row array, then [Open] returns a cursor at position 0
    over exactly those rows and the columns of the handle.  It does so in
    any process state, whatever the credentials and the generator would
    answer: besides creating the cache directory (and printing a warning
    if that fails) it only reads the file and prints a message; the
    generator is not invoked, the credentials are not read, no file is
    written and the schema cache is not touched.  In particular this holds
    in every state that follows a materialisation that persisted the
    file. *)
Theorem Open_cache_hit {OS : Type} `{Host OS}
    (p : Process OS) (vt : InfiniTable.t) (data : string) (rows : list Row) :
  let w1 := (os_MkdirAll ".cache" (world p)).2 in
  let file := cacheFile (InfiniTable.tableName vt) in
  let warning :=
    match (os_MkdirAll ".cache" (world p)).1 with
    | Some err =>
        [CallPrint ("Warning: failed to create cache directory: " +:+ err +:+ newline)]
    | None => []
    end in
  let calls :=
    [CallMkdirAll ".cache"] ++ warning
    ++ [CallReadFile file;
        CallPrint ("Loading data from cache for table: "
                   +:+ InfiniTable.tableName vt +:+ newline)] in
  os_ReadFile file w1 = Ok data →
  json_Unmarshal_rows data = Ok rows →
  InfiniTable.Open vt p
  = (Returns (Ok (InfiniCursor.mk (InfiniTable.tableName vt) rows 0
                    (InfiniTable.columns vt))),
     mkProcess (schemaCache p) w1 (trace p ++ calls))
  ∧ generator_calls calls = 0%nat
  ∧ file_writes calls = []
  ∧ CallGetenv "OPENAI_API_KEY" ∉ calls.
Proof.
  intros w1 file warning calls Hread Hparse.
  subst w1 file warning calls. unfold cacheFile in *.
  go_unfold. unfold record.
  destruct (os_MkdirAll ".cache" (world p)) as [[err |] w1]; simpl in *;
    rewrite Hread; simpl; rewrite Hparse; simpl; rewrite <- !app_assoc; simpl;
    (split; [reflexivity |]); (split; [reflexivity |]); (split; [reflexivity |]);
    intros Hin; repeat (apply elem_of_cons in Hin as [Hin | Hin]; [discriminate |]);
    by apply elem_of_nil in Hin.
Qed.

(** The users table, opened a first time with the generator at hand and a
    second time when the generator has nothing left to answer. *)
Lemma Open_cache_hit_witness :
  let vt := InfiniTable.mk "users" "people who registered" Sim.users_columns in
  let p0 := Sim.boot (Sim.mk Sim.with_key ∅ [Ok ["users.response"]] true) in
  let p1 := (InfiniTable.Open vt p0).2 in
  Sim.replies (world p1) = []
  ∧ (InfiniTable.Open vt p1).1
    = Returns (Ok (InfiniCursor.mk "users" Sim.users_rows 0 Sim.users_columns))
  ∧ generator_calls (trace (InfiniTable.Open vt p1).2) = generator_calls (trace p1).
Proof.
  intros vt p0 p1.
  destruct (Open_cache_hit p1 vt "users.rows" Sim.users_rows)
    as (Hopen & _); [reflexivity | reflexivity |].
  split; [reflexivity |]. rewrite Hopen. split; [reflexivity |].
  simpl. rewrite generator_calls_app. reflexivity.
Defined.

(** C7.  When the generator's answer to [Open] parses to a response with
    zero rows, [Open] fails with [EmptyData]: no cursor is returned, no
    file is written, and the schema cache is as before. *)
Theorem Open_rejects_empty_data {OS : Type} `{Host OS}
    (p : Process OS) (vt : InfiniTable.t) (dataResp : DataResponse) (w : OS) :
  data_reply p vt dataResp w →
  Rows dataResp = [] →
  ∃ p' calls,
    InfiniTable.Open vt p = (Returns (Err EmptyData), p')
    ∧ trace p' = trace p ++ calls
    ∧ generator_calls calls = 1%nat
    ∧ file_writes calls = []
    ∧ world p' = w
    ∧ schemaCache p' = schemaCache p.
Proof.
  intros (Hcache & Hkey & tmpl & prompt & content & rest
          & Htmpl & Hexec & Hchat & Hjson) Hrows.
  unfold cache_unusable, cacheFile, dataRequest in *.
  go_unfold. unfold record.
  destruct (os_MkdirAll ".cache" (world p)) as [[err |] w1]; simpl in *;
    (destruct (os_ReadFile _ w1) as [data |];
     [destruct (json_Unmarshal_rows data); [done |] |]);
    simpl; rewrite decide_False by done; simpl;
    rewrite Htmpl; simpl; rewrite Hexec; simpl; rewrite Hchat; simpl;
    rewrite Hjson, Hrows; simpl;
    eexists _, _; (split; [reflexivity |]); simpl; rewrite <- ?app_assoc; simpl;
    (split; [reflexivity |]); done.
Qed.

Lemma Open_rejects_empty_data_witness :
  (InfiniTable.Open (InfiniTable.mk "users" "people who registered" Sim.users_columns)
     (Sim.boot (Sim.mk Sim.with_key ∅ [Ok ["empty.response"]] true))).1
  = Returns (Err "no data generated").
Proof.
  destruct (Open_rejects_empty_data
              (Sim.boot (Sim.mk Sim.with_key ∅ [Ok ["empty.response"]] true))
              (InfiniTable.mk "users" "people who registered" Sim.users_columns)
              (mkDataResponse []) (Sim.mk Sim.with_key ∅ [] true))
    as (p' & calls & Hopen & _).
  - split; [exact I |]. split; [vm_compute; discriminate |].
    do 4 eexists. repeat split.
  - reflexivity.
  - by rewrite Hopen.
Defined.

(** C4.  Failures cache nothing, and nothing partial is cached or served.
    (1) When the resolution of [Connect] fails (missing credentials, prompt
    or generator error, parse failure, validation failure) or panics, the
    schema cache is left as it was.  (2) When it succeeds, the columns it
    returns are the entry of the name in the cache: the entry that was
    there, or the whole column set of a parsed answer, validated.  (3) So
    a [Connect] that does not return a table leaves the schema cache as it
    was, unless the resolution was complete and the engine refused the
    declared schema; the entry then cached is a validated column set.
    (4) Every sequence of requests to the module and to its tables keeps
    every cached entry a validated column set; it does so from the empty
    cache a process starts with.
    (5) [Open] never touches the schema cache; when it does not return a
    cursor it has written no file; when it returns one, the cursor serves
    either the whole row set parsed from the cache file, and no file is
    written, or the whole, non-empty row set of a parsed answer, and the
    only file that may be written is the cache file of the table, with the
    encoding of exactly those rows. *)
Theorem failures_leave_caches_unchanged {OS : Type} `{Host OS} (p : Process OS) :
  (∀ name desc o p',
     InfiniDBModule.resolveColumns name desc p = (o, p') →
     (∀ cols, o ≠ Returns (Ok cols)) →
     schemaCache p' = schemaCache p)
  ∧ (∀ name desc cols p',
       InfiniDBModule.resolveColumns name desc p = (Returns (Ok cols), p') →
       schemaCache p' !! name = Some cols
       ∧ (schemaCache p !! name = Some cols
          ∨ well_formed_columns cols
            ∧ ∃ content tableSchema,
                json_Unmarshal_TableSchema content = Ok tableSchema
                ∧ cols = Columns tableSchema))
  ∧ (∀ args o p',
       InfiniDBModule.Connect args p = (o, p') →
       (∀ vt, o ≠ Returns (Ok vt)) →
       schemaCache p' = schemaCache p
       ∨ ∃ cols, well_formed_columns cols
           ∧ schemaCache p' = <[nth 2 args "" := cols]> (schemaCache p)
           ∧ last (trace p')
             = Some (CallDeclareVTab (InfiniDBModule.schemaString cols)))
  ∧ (∀ ops w,
       (cache_valid p → cache_valid (session ops p))
       ∧ cache_valid (session ops (mkProcess ∅ w [])))
  ∧ (∀ vt o p',
       InfiniTable.Open vt p = (o, p') →
       let w1 := (os_MkdirAll ".cache" (world p)).2 in
       let file := cacheFile (InfiniTable.tableName vt) in
       schemaCache p' = schemaCache p ∧
       ∃ calls, trace p' = trace p ++ calls ∧
         ((∀ cur, o ≠ Returns (Ok cur)) → file_writes calls = []) ∧
         (∀ cur, o = Returns (Ok cur) →
            (∃ fileData,
               os_ReadFile file w1 = Ok fileData
               ∧ json_Unmarshal_rows fileData = Ok (InfiniCursor.data cur)
               ∧ file_writes calls = [])
            ∨ (∃ content dataResp,
                 json_Unmarshal_DataResponse content = Ok dataResp
                 ∧ InfiniCursor.data cur = Rows dataResp
                 ∧ InfiniCursor.data cur ≠ []
                 ∧ (file_writes calls = []
                    ∨ ∃ jsonData,
                        json_Marshal_rows (InfiniCursor.data cur) = Ok jsonData
                        ∧ file_writes calls = [CallWriteFile file jsonData])))).
Proof.
  split; [| split; [| split; [| split]]].
  - intros name desc o p' Hrun Hfail.
    destruct (schemaCache p !! name) as [cached |] eqn:Hcache.
    + rewrite (resolveColumns_hit p name desc cached Hcache) in Hrun.
      by injection Hrun as _ <-.
    + destruct (resolveColumns_miss_inv p name desc o p' Hcache Hrun)
        as (calls & _ & _ & [(cols & -> & _) | (_ & Hsame & _)]); [| done].
      by destruct (Hfail cols).
  - intros name desc cols p' Hrun.
    destruct (schemaCache p !! name) as [cached |] eqn:Hcache.
    + rewrite (resolveColumns_hit p name desc cached Hcache) in Hrun.
      injection Hrun as <- <-. split; [done | by left].
    + destruct (resolveColumns_miss_inv p name desc _ p' Hcache Hrun)
        as (calls & _ & _ & [(cols' & [= <-] & -> & Hwf & _ & Hfrom)
                            | (Hfail & _)]); [| by destruct (Hfail cols)].
      rewrite lookup_insert_eq. split; [done | by right].
  - intros args o p' Hrun _. by apply (Connect_cache_effect p args o p').
  - intros ops w. split; [apply session_cache_valid |].
    apply session_cache_valid. intros name columns. simpl.
    by rewrite lookup_empty.
  - intros vt o p' Hrun w1 file.
    destruct (Open_inv p vt o p' Hrun) as (Hsame & calls & Htrace & _ & Hfail & Hok).
    split; [done |]. exists calls. split; [done |]. split; [done |].
    intros cur Hcur.
    destruct (Hok cur Hcur)
      as [_ [(fileData & ? & ? & _ & ?)
            | (content & dataResp & ? & ? & ? & _ & ?)]].
    + left. eauto.
    + right. eauto 10.
Qed.

(** * Further properties of the cursor *)

Section CursorScan.
Context {OS : Type} `{Host OS}.

Lemma nexts_frame (j : nat) (cur : InfiniCursor.t) :
  InfiniCursor.tableName (nexts j cur) = InfiniCursor.tableName cur
  ∧ InfiniCursor.data (nexts j cur) = InfiniCursor.data cur
  ∧ InfiniCursor.columns (nexts j cur) = InfiniCursor.columns cur.
Proof.
  unfold nexts. induction j as [| j IH]; [done |].
  rewrite Nat.iter_succ. simpl. exact IH.
Qed.

Lemma wrap_int_small (z : Z) : in_int64 z = true → wrap_int z = z.
Proof.
  unfold in_int64, int_min, int_max, wrap_int. intros Hz.
  apply andb_true_iff in Hz as [H1 H2]. apply Z.leb_le in H1, H2.
  rewrite Z.mod_small; lia.
Qed.

Lemma wrap_int_range (z : Z) : in_int64 (wrap_int z) = true.
Proof.
  unfold in_int64, int_min, int_max, wrap_int.
  pose proof (Z.mod_pos_bound (z + 2 ^ 63) (2 ^ 64) ltac:(lia)).
  apply andb_true_iff. split; apply Z.leb_le; lia.
Qed.
End CursorScan.

(** X1.  [Filter] rewinds: wherever earlier calls of [Next] left the
    cursor, [Filter] returns no error and puts it back at position 0 over
    the same rows and columns, so a scan can be restarted; right after
    [Filter] the cursor is at its end exactly when the table has no row. *)
Theorem Filter_rewinds (cur : InfiniCursor.t) (j : nat) :
  (InfiniCursor.Filter (nexts j cur)).1 = None
  ∧ (InfiniCursor.Filter (nexts j cur)).2
    = InfiniCursor.mk (InfiniCursor.tableName cur) (InfiniCursor.data cur) 0
        (InfiniCursor.columns cur)
  ∧ (∀ k, advance k (nexts j cur) = advance k cur)
  ∧ ((InfiniCursor.EOF (InfiniCursor.Filter (nexts j cur)).2).1 = true
     ↔ InfiniCursor.data cur = []).
Proof.
  destruct (nexts_frame j cur) as (Hname & Hdata & Hcols).
  assert ((InfiniCursor.Filter (nexts j cur)).2
          = InfiniCursor.mk (InfiniCursor.tableName cur) (InfiniCursor.data cur) 0
              (InfiniCursor.columns cur)) as Hfilter.
  { unfold InfiniCursor.Filter, InfiniCursor.set_pos. simpl.
    by rewrite Hname, Hdata, Hcols. }
  split; [done |]. split; [done |]. split.
  - intros k. unfold advance. rewrite Hfilter. done.
  - rewrite Hfilter. simpl. rewrite Z.leb_le. unfold len.
    destruct (InfiniCursor.data cur); simpl; split; intros; try done; lia.
Qed.

(** X2.  Row identities in a scan: after [Filter] and [k] advances [Rowid]
    returns [k], with no error and without moving the cursor; so two
    different stops of one scan have different row identities, and a stop
    that is not at the end has an identity below the number of rows. *)
Theorem Rowid_in_scan (cur : InfiniCursor.t) (k : nat) :
  (Z.of_nat k ≤ int_max)%Z →
  InfiniCursor.Rowid (advance k cur) = ((Z.of_nat k, None), advance k cur)
  ∧ (∀ j : nat, (Z.of_nat j ≤ int_max)%Z →
       (InfiniCursor.Rowid (advance j cur)).1.1
       = (InfiniCursor.Rowid (advance k cur)).1.1 → j = k)
  ∧ ((InfiniCursor.EOF (advance k cur)).1 = false →
     (0 ≤ (InfiniCursor.Rowid (advance k cur)).1.1
      < len (InfiniCursor.data cur))%Z).
Proof.
  intros Hk. rewrite (advance_pos k cur Hk).
  split; [done |]. split.
  - intros j Hj. rewrite (advance_pos j cur Hj). simpl. lia.
  - simpl. rewrite Z.leb_gt. lia.
Qed.

Lemma Rowid_in_scan_witness :
  InfiniCursor.Rowid (advance 1 users_cursor) = ((1%Z, None), advance 1 users_cursor).
Proof.
  destruct (Rowid_in_scan users_cursor 1) as [Hrow _]; [vm_compute; discriminate |].
  exact Hrow.
Defined.

(** X3.  A scan reads the rows in their order: after [Filter] and [k]
    advances, [Column] at a valid column index reads the [k]-th row of the
    row set (counting from 0): null if that row lacks the column's key,
    and otherwise the coercion of that row's value by the column's type;
    the cursor stays at position [k]. *)
Theorem Column_reads_kth_row {OS : Type} `{Host OS}
    (cur : InfiniCursor.t) (c : SQLiteContext) (col : Z) (k : nat)
    (row : Row) (column : Column) :
  (Z.of_nat k ≤ int_max)%Z →
  InfiniCursor.data cur !! k = Some row →
  (0 ≤ col)%Z →
  InfiniCursor.columns cur !! Z.to_nat col = Some column →
  InfiniCursor.Column c col (advance k cur)
  = (match row !! Name column with
     | None => (c ++ [ResultNull], None)
     | Some value => InfiniCursor.coerce c (Name column) (Typ column) value
     end, advance k cur).
Proof.
  intros Hk Hrow Hcol Hcolumn.
  rewrite (advance_pos k cur Hk).
  apply Column_in_range; simpl; try done; try lia.
  by rewrite Nat2Z.id.
Qed.

Lemma Column_reads_kth_row_witness :
  InfiniCursor.Column [] 1 (advance 1 users_cursor)
  = (([ResultText "Alan"], None), advance 1 users_cursor).
Proof.
  rewrite (Column_reads_kth_row (H := Sim.host) users_cursor [] 1 1
             {[ "id" := VFloat64 Sim.float_2; "name" := VString "Alan" ]}
             (mkColumn "name" "TEXT" "" "full name"));
    [ reflexivity | vm_compute; discriminate | reflexivity | lia | reflexivity ].
Defined.

Section ColumnDiscipline.
Context {OS : Type} `{Host OS}.

(** The switch on the type sets one fitting result, or fails and sets
    none. *)
Lemma coerce_cases (c : SQLiteContext) (colName colType : string) (value : Value) :
  (∃ r, InfiniCursor.coerce c colName colType value = (c ++ [r], None)
        ∧ r ≠ ResultNull ∧ result_matches colType r)
  ∨ (∃ err, InfiniCursor.coerce c colName colType value = (c, Some err)).
Proof.
  unfold InfiniCursor.coerce.
  repeat case_decide; destruct value; subst;
    first [ right; eexists; reflexivity
          | left; eexists; split; [reflexivity |]; split; [discriminate | reflexivity] ].
Qed.

(** In every case [Column] sets one fitting result, or fails and sets
    none; it never moves the cursor. *)
Lemma Column_cases (cur : InfiniCursor.t) (c : SQLiteContext) (col : Z) :
  (InfiniCursor.Column c col cur).2 = cur
  ∧ ((∃ r column,
        (InfiniCursor.Column c col cur).1 = (c ++ [r], None)
        ∧ InfiniCursor.columns cur !! Z.to_nat col = Some column
        ∧ result_matches (Typ column) r)
     ∨ (∃ err, (InfiniCursor.Column c col cur).1 = (c, Some err))).
Proof.
  unfold InfiniCursor.Column.
  destruct (_ || _ || _ || _)%Z; [split; [done | right; eauto] |].
  destruct (InfiniCursor.data cur !! _) as [row |]; [| split; [done | right; eauto]].
  destruct (InfiniCursor.columns cur !! _) as [column |] eqn:Hcolumn;
    [| split; [done | right; eauto]].
  destruct (row !! Name column) as [value |].
  - split; [done |]. simpl.
    destruct (coerce_cases c (Name column) (Typ column) value)
      as [(r & -> & _ & Hfit) | (err & ->)]; [left | right]; eauto.
  - split; [done |]. left. exists ResultNull, column. done.
Qed.
End ColumnDiscipline.

(** X4.  [Column] answers through exactly one channel, for every cursor,
    context and column index, in bounds or not: either it returns no error
    and has set exactly one result on the context, or it returns an error
    and has set none; in both cases the cursor is as before. *)
Theorem Column_result_or_error {OS : Type} `{Host OS}
    (cur : InfiniCursor.t) (c : SQLiteContext) (col : Z) :
  (InfiniCursor.Column c col cur).2 = cur
  ∧ ((∃ r, (InfiniCursor.Column c col cur).1 = (c ++ [r], None))
     ∨ (∃ err, (InfiniCursor.Column c col cur).1 = (c, Some err))).
Proof.
  destruct (Column_cases cur c col) as [Hcur [(r & column & Hout & _) | Herr]];
    (split; [done |]); [left | right]; eauto.
Qed.

(** X5.  What a successful read hands to the engine fits the declared type
    of the column: an INTEGER column yields an integer or null, a TEXT
    column a text or null, a REAL column a float or null, a BLOB column
    bytes or null; a column of any other type string can only yield
    null. *)
Theorem Column_result_fits_type {OS : Type} `{Host OS}
    (cur : InfiniCursor.t) (c c' : SQLiteContext) (col : Z) :
  (InfiniCursor.Column c col cur).1 = (c', None) →
  ∃ r column,
    c' = c ++ [r]
    ∧ InfiniCursor.columns cur !! Z.to_nat col = Some column
    ∧ result_matches (Typ column) r
    ∧ (¬ declared_type (Typ column) → r = ResultNull).
Proof.
  intros Hok.
  destruct (Column_cases cur c col) as [_ [(r & column & Hout & Hcolumn & Hfit) | (err & Herr)]];
    [| congruence].
  rewrite Hout in Hok. injection Hok as <-.
  exists r, column. split; [done |]. split; [done |]. split; [done |].
  intros Hundeclared. destruct r; simpl in Hfit; try done;
    exfalso; apply Hundeclared; unfold declared_type; tauto.
Qed.

Lemma Column_result_fits_type_witness :
  ∃ r column,
    [ResultInt64 2] = [] ++ [r]
    ∧ InfiniCursor.columns users_cursor !! Z.to_nat 0 = Some column
    ∧ result_matches (Typ column) r
    ∧ (¬ declared_type (Typ column) → r = ResultNull).
Proof.
  apply (Column_result_fits_type (H := Sim.host) users_cursor [] [ResultInt64 2] 0).
  reflexivity.
Defined.

(** X6.  [Next] never fails and never leaves the range of [int]; it keeps
    the rows and the columns.  Below the largest [int] it moves one row
    forward; at the largest [int] it wraps to the smallest one, a position
    at which [EOF] answers false although [Column] finds no row. *)
Theorem Next_wraps_at_max_int {OS : Type} `{Host OS}
    (cur : InfiniCursor.t) (c : SQLiteContext) (col : Z) :
  in_int64 (InfiniCursor.pos cur) = true →
  let next := (InfiniCursor.Next cur).2 in
  (InfiniCursor.Next cur).1 = None
  ∧ in_int64 (InfiniCursor.pos next) = true
  ∧ InfiniCursor.data next = InfiniCursor.data cur
  ∧ InfiniCursor.columns next = InfiniCursor.columns cur
  ∧ (InfiniCursor.pos cur ≠ int_max →
     InfiniCursor.pos next = (InfiniCursor.pos cur + 1)%Z)
  ∧ (InfiniCursor.pos cur = int_max →
     InfiniCursor.pos next = int_min
     ∧ (InfiniCursor.EOF next).1 = false
     ∧ InfiniCursor.Column c col next = ((c, Some CursorOutOfRange), next)).
Proof.
  intros Hpos next. subst next. simpl.
  split; [done |]. split; [apply wrap_int_range |]. split; [done |]. split; [done |].
  unfold in_int64, int_min, int_max in *.
  apply andb_true_iff in Hpos as [H1 H2]. apply Z.leb_le in H1, H2.
  split.
  - intros Hne. unfold wrap_int. rewrite Z.mod_small; lia.
  - intros ->. split; [reflexivity |]. split.
    + apply Z.leb_gt. change (wrap_int (2 ^ 63 - 1 + 1)) with (- 2 ^ 63)%Z.
      unfold len. lia.
    + apply Column_out_of_range. left. simpl.
      change (wrap_int (2 ^ 63 - 1 + 1)) with (- 2 ^ 63)%Z. lia.
Qed.

Lemma Next_wraps_at_max_int_witness :
  InfiniCursor.pos (InfiniCursor.Next (InfiniCursor.set_pos int_max users_cursor)).2
  = int_min.
Proof.
  destruct (Next_wraps_at_max_int (H := Sim.host)
              (InfiniCursor.set_pos int_max users_cursor) [] 0)
    as (_ & _ & _ & _ & _ & Hwrap); [reflexivity |].
  by destruct (Hwrap eq_refl) as [Hmin _].
Defined.

(** * Further properties of the data schema, the index and the validation *)





(** X8.  The data schema and the cursor agree: for a column of a declared
    type, a row value of the JSON type the schema asks for, as
    [json.Unmarshal] decodes it, is read by [Column] without error, as a
    result that fits the column's type. *)
Theorem schema_conforming_value_reads {OS : Type} `{Host OS}
    (col : Column) (c : SQLiteContext) (jsonType : string) (value : Value) :
  declared_type (Typ col) →
  at_path ["type"] (columnDataSchema col) = Some (VString jsonType) →
  decodes_as jsonType value →
  ∃ r, InfiniCursor.coerce c (Name col) (Typ col) value = (c ++ [r], None)
       ∧ r ≠ ResultNull
       ∧ result_matches (Typ col) r.
Proof.
  intros Hdecl Htype Hvalue. unfold columnDataSchema in Htype.
  unfold InfiniCursor.coerce, decodes_as in *.
  destruct Hdecl as [Ht | [Ht | [Ht | Ht]]]; rewrite Ht in *; simpl in *;
    injection Htype as <-; simpl in Hvalue; destruct Hvalue as [x ->];
    eexists; (split; [reflexivity |]); split; (discriminate || reflexivity).
Qed.

Lemma schema_conforming_value_reads_witness :
  ∃ r, InfiniCursor.coerce [] "age" "INTEGER" (VFloat64 Sim.float_30) = ([] ++ [r], None)
       ∧ r ≠ ResultNull
       ∧ result_matches "INTEGER" r.
Proof.
  apply (schema_conforming_value_reads (H := Sim.host)
           (mkColumn "age" "INTEGER" "" "age in years") [] "integer"
           (VFloat64 Sim.float_30)).
  - left. reflexivity.
  - reflexivity.
  - exists Sim.float_30. reflexivity.
Defined.

(** X9.  [BestIndex] never fails and marks no constraint as used: its
    answer has one entry per constraint, none of them true, so the engine
    filters and orders the rows of the full scan itself; the answer
    depends on the number of constraints only, not on the handle, on what
    the constraints are, or on the ordering asked for. *)
Theorem BestIndex_uses_no_constraint
    (vt vt' : InfiniTable.t) (cst cst' : list InfoConstraint)
    (ob ob' : list InfoOrderBy) :
  (InfiniTable.BestIndex vt cst ob).2 = None
  ∧ length (Used (InfiniTable.BestIndex vt cst ob).1) = length cst
  ∧ (∀ i, Used (InfiniTable.BestIndex vt cst ob).1 !! i ≠ Some true)
  ∧ AlreadyOrdered (InfiniTable.BestIndex vt cst ob).1 = false
  ∧ (length cst' = length cst →
     InfiniTable.BestIndex vt' cst' ob' = InfiniTable.BestIndex vt cst ob).
Proof.
  unfold InfiniTable.BestIndex. simpl.
  split; [done |]. split; [apply length_replicate |]. split; [| split; [done |]].
  - intros i Hi. apply lookup_replicate in Hi as [? _]. done.
  - by intros ->.
Qed.

(** Well-formedness of a prefix does not depend on the order. *)
Lemma prefix_ok_Permutation (columns columns' : list Column) :
  columns ≡ₚ columns' → prefix_ok columns → prefix_ok columns'.
Proof.
  intros Hperm [Hall Hnd]. split.
  - by rewrite <- Hperm.
  - by rewrite <- Hperm.
Qed.

(** X10.  Whether the validation loop of [Connect] accepts a column set
    does not depend on the order of the columns: a reordering of an
    accepted set is accepted, a reordering of a rejected one rejected
    (possibly with another error, that of its own first offending
    column). *)
Theorem validation_ignores_column_order (columns columns' : list Column) :
  columns ≡ₚ columns' →
  (InfiniDBModule.validateColumns ∅ columns = None
   ↔ InfiniDBModule.validateColumns ∅ columns' = None).
Proof.
  intros Hperm. rewrite !validateColumns_well_formed.
  split; apply prefix_ok_Permutation; [done | by symmetry].
Qed.

Lemma validation_ignores_column_order_witness :
  InfiniDBModule.validateColumns ∅ (reverse Sim.users_columns) = None.
Proof.
  apply (validation_ignores_column_order Sim.users_columns (reverse Sim.users_columns)).
  - symmetry. apply reverse_Permutation.
  - reflexivity.
Defined.

(** * Further properties of the module *)

(** X11.  Of its arguments, [Connect] reads the third and the fourth only:
    two argument lists of at least four entries that agree on the table
    name and on the description give the same result and the same process,
    whatever the module name, the database name and the further
    arguments. *)
Theorem Connect_reads_name_and_description {OS : Type} `{Host OS}
    (p : Process OS) (args args' : list string) :
  (4 ≤ len args)%Z → (4 ≤ len args')%Z →
  nth 2 args "" = nth 2 args' "" →
  nth 3 args "" = nth 3 args' "" →
  InfiniDBModule.Connect args p = InfiniDBModule.Connect args' p.
Proof.
  intros Hlen Hlen' Hname Hdesc.
  rewrite !Connect_unfold by done. by rewrite Hname, Hdesc.
Qed.

Lemma Connect_reads_name_and_description_witness :
  let p := Sim.boot (Sim.mk Sim.with_key ∅ [Ok ["users.schema"]] true) in
  InfiniDBModule.Connect Sim.users_args p
  = InfiniDBModule.Connect
      ["other"; "temp"; "users"; "people who registered"; "extra"] p.
Proof.
  intros p.
  apply (Connect_reads_name_and_description p Sim.users_args
           ["other"; "temp"; "users"; "people who registered"; "extra"]);
    [ vm_compute; discriminate | vm_compute; discriminate | reflexivity | reflexivity ].
Defined.

(** X12.  The schema cache only grows: no sequence of [Connect] and [Open]
    requests changes or removes an entry it holds, and a [Connect] leaves
    the entries of all other table names as they were. *)
Theorem schema_cache_only_grows {OS : Type} `{Host OS} (p : Process OS) :
  (∀ ops name cols,
     schemaCache p !! name = Some cols →
     schemaCache (session ops p) !! name = Some cols)
  ∧ (∀ args o p' other,
       InfiniDBModule.Connect args p = (o, p') →
       other ≠ nth 2 args "" →
       schemaCache p' !! other = schemaCache p !! other).
Proof.
  split.
  - intros ops name cols. apply session_keeps_entry.
  - intros args o p' other Hrun Hother.
    destruct (Connect_cache_effect p args o p' Hrun) as [-> | (cols & _ & -> & _)];
      [done |].
    by rewrite lookup_insert_ne.
Qed.

(** X13.  Without credentials a [Connect] for an uncached name fails with
    the error that [OPENAI_API_KEY] is not set, right after reading the
    variable: no template is read, the generator is not invoked, nothing
    is declared and the schema cache is as before. *)
Theorem Connect_needs_credentials_on_miss {OS : Type} `{Host OS}
    (p : Process OS) (args : list string) :
  (4 ≤ len args)%Z →
  schemaCache p !! nth 2 args "" = None →
  os_Getenv "OPENAI_API_KEY" (world p) = "" →
  InfiniDBModule.Connect args p
  = (Returns (Err "OPENAI_API_KEY not set"),
     mkProcess (schemaCache p) (world p) (trace p ++ [CallGetenv "OPENAI_API_KEY"])).
Proof.
  intros Hlen Hmiss Hkey. rewrite Connect_unfold by done.
  go_unfold. rewrite Hmiss. simpl. rewrite Hkey. reflexivity.
Qed.

Lemma Connect_needs_credentials_on_miss_witness :
  (InfiniDBModule.Connect Sim.users_args
     (Sim.boot (Sim.mk ∅ ∅ [Ok ["users.schema"]] true))).1
  = Returns (Err "OPENAI_API_KEY not set").
Proof.
  rewrite (Connect_needs_credentials_on_miss
             (Sim.boot (Sim.mk ∅ ∅ [Ok ["users.schema"]] true)) Sim.users_args);
    [ reflexivity | vm_compute; discriminate | reflexivity | reflexivity ].
Defined.

(** X14.  Without credentials an [Open] that finds no usable cache file
    fails with the error that [OPENAI_API_KEY] is not set: no template is
    read, the generator is not invoked and no file is written. *)
Theorem Open_needs_credentials_on_miss {OS : Type} `{Host OS}
    (p : Process OS) (vt : InfiniTable.t) :
  let w1 := (os_MkdirAll ".cache" (world p)).2 in
  cache_unusable (InfiniTable.tableName vt) w1 →
  os_Getenv "OPENAI_API_KEY" w1 = "" →
  ∃ p' calls,
    InfiniTable.Open vt p = (Returns (Err "OPENAI_API_KEY not set"), p')
    ∧ trace p' = trace p ++ calls
    ∧ world p' = w1
    ∧ schemaCache p' = schemaCache p
    ∧ generator_calls calls = 0%nat
    ∧ file_writes calls = []
    ∧ Forall (λ c, is_template_read c = false) calls.
Proof.
  intros w1 Hcache Hkey. subst w1.
  unfold cache_unusable, cacheFile in *. go_unfold. unfold record.
  destruct (os_MkdirAll ".cache" (world p)) as [[err |] w1]; simpl in *;
    (destruct (os_ReadFile _ w1) as [data | e1];
     [destruct (json_Unmarshal_rows data) as [rows0 | e2]; [done |] |]);
    simpl; rewrite Hkey; simpl;
    eexists _, _; (split; [reflexivity |]); simpl; rewrite <- ?app_assoc; simpl;
    (split; [reflexivity |]); repeat (split; [reflexivity |]);
    repeat constructor.
Qed.

Lemma Open_needs_credentials_on_miss_witness :
  (InfiniTable.Open (InfiniTable.mk "users" "people who registered" Sim.users_columns)
     (Sim.boot (Sim.mk ∅ ∅ [Ok ["users.response"]] true))).1
  = Returns (Err "OPENAI_API_KEY not set").
Proof.
  destruct (Open_needs_credentials_on_miss
              (Sim.boot (Sim.mk ∅ ∅ [Ok ["users.response"]] true))
              (InfiniTable.mk "users" "people who registered" Sim.users_columns))
    as (p' & calls & Hopen & _); [exact I | reflexivity |].
  by rewrite Hopen.
Defined.

(** X15.  [renderPrompt] never panics, makes one call, the parse of the
    template file, and leaves the schema cache and the world as they are.
    It returns the rendered text exactly when the template parses and
    executes; a parse failure and an execution failure are each reported
    with the path of the template. *)
Theorem renderPrompt_outcomes {OS : Type} `{Host OS}
    (p : Process OS) (templatePath : string) (data : PromptData) :
  ∃ r,
    renderPrompt templatePath data p
    = (Returns r, mkProcess (schemaCache p) (world p)
                    (trace p ++ [CallParseFiles templatePath]))
    ∧ (∀ text, r = Ok text ↔
         ∃ tmpl, template_ParseFiles templatePath (world p) = Ok tmpl
                 ∧ template_Execute tmpl data = Ok text)
    ∧ (∀ err, template_ParseFiles templatePath (world p) = Err err →
         r = Err ("failed to parse template " +:+ templatePath +:+ ": " +:+ err))
    ∧ (∀ tmpl err, template_ParseFiles templatePath (world p) = Ok tmpl →
         template_Execute tmpl data = Err err →
         r = Err ("failed to execute template " +:+ templatePath +:+ ": " +:+ err)).
Proof.
  go_unfold. unfold record. simpl.
  destruct (template_ParseFiles templatePath (world p)) as [tmpl | err] eqn:Hparse.
  - destruct (template_Execute tmpl data) as [text | err] eqn:Hexec;
      eexists; (split; [reflexivity |]); (split; [| split]); try done.
    + intros text'. split; [intros [= <-]; eauto |].
      intros (tmpl' & [= <-] & Htext). congruence.
    + intros tmpl' err [= <-]. congruence.
    + intros text'. split; [done |]. intros (tmpl' & [= <-] & Htext). congruence.
    + intros tmpl' err' [= <-]. congruence.
  - eexists. split; [reflexivity |]. split; [| split].
    + intros text. split; [done |]. intros (tmpl & ? & _). done.
    + by intros ? [= <-].
    + done.
Qed.

(** X16.  When the schema prompt cannot be rendered, a [Connect] for an
    uncached name fails with the error of [renderPrompt] behind the words
    "failed to render schema prompt", without invoking the generator and
    without touching the schema cache. *)
Theorem Connect_stops_at_prompt_failure {OS : Type} `{Host OS}
    (p : Process OS) (args : list string) (err : error) :
  (4 ≤ len args)%Z →
  schemaCache p !! nth 2 args "" = None →
  os_Getenv "OPENAI_API_KEY" (world p) ≠ "" →
  (renderPrompt "prompts/schema_generation.txt"
     (mkPromptData (nth 2 args "") (nth 3 args "")) p).1 = Returns (Err err) →
  InfiniDBModule.Connect args p
  = (Returns (Err ("failed to render schema prompt: " +:+ err)),
     mkProcess (schemaCache p) (world p)
       (trace p ++ [CallGetenv "OPENAI_API_KEY";
                    CallParseFiles "prompts/schema_generation.txt"])).
Proof.
  intros Hlen Hmiss Hkey Hprompt. rewrite Connect_unfold by done.
  go_unfold. unfold record in *. rewrite Hmiss. simpl in *.
  rewrite decide_False by done. simpl.
  destruct (template_ParseFiles _ (world p)) as [tmpl | e]; simpl in *.
  - destruct (template_Execute tmpl _) as [text | e]; simpl in *; [done |].
    injection Hprompt as <-. by rewrite <- app_assoc.
  - injection Hprompt as <-. by rewrite <- app_assoc.
Qed.

Lemma Connect_stops_at_prompt_failure_witness :
  (InfiniDBModule.Connect (H := Faulty.host) Sim.users_args (Faulty.boot ∅)).1
  = Returns (Err ("failed to render schema prompt: "
                  +:+ "failed to parse template prompts/schema_generation.txt: "
                  +:+ "open prompts/schema_generation.txt: no such file or directory")).
Proof.
  rewrite (Connect_stops_at_prompt_failure (H := Faulty.host) (Faulty.boot ∅)
             Sim.users_args
             ("failed to parse template prompts/schema_generation.txt: "
              +:+ "open prompts/schema_generation.txt: no such file or directory"));
    [ reflexivity | vm_compute; discriminate | reflexivity
    | vm_compute; discriminate | reflexivity ].
Defined.

(** X17.  When the data prompt cannot be rendered, an [Open] that finds no
    usable cache file fails with the error of [renderPrompt] behind the
    words "failed to render data prompt", without invoking the generator
    and without writing a file. *)
Theorem Open_stops_at_prompt_failure {OS : Type} `{Host OS}
    (p : Process OS) (vt : InfiniTable.t) (err : error) :
  let w1 := (os_MkdirAll ".cache" (world p)).2 in
  cache_unusable (InfiniTable.tableName vt) w1 →
  os_Getenv "OPENAI_API_KEY" w1 ≠ "" →
  (renderPrompt "prompts/data_generation.txt"
     (mkPromptData (InfiniTable.tableName vt) (InfiniTable.tableDesc vt))
     (mkProcess (schemaCache p) w1 (trace p))).1 = Returns (Err err) →
  ∃ p' calls,
    InfiniTable.Open vt p
    = (Returns (Err ("failed to render data prompt: " +:+ err)), p')
    ∧ trace p' = trace p ++ calls
    ∧ world p' = w1
    ∧ generator_calls calls = 0%nat
    ∧ file_writes calls = [].
Proof.
  intros w1 Hcache Hkey Hprompt. subst w1.
  unfold cache_unusable, cacheFile in *. go_unfold. unfold record in *.
  destruct (os_MkdirAll ".cache" (world p)) as [[e0 |] w1]; simpl in *;
    (destruct (os_ReadFile _ w1) as [data | e1];
     [destruct (json_Unmarshal_rows data) as [rows0 | e2]; [done |] |]);
    simpl; rewrite decide_False by done; simpl;
    (destruct (template_ParseFiles _ w1) as [tmpl | e]; simpl in *;
     [destruct (template_Execute tmpl _) as [text | e]; simpl in *; [done |] |]);
    injection Hprompt as <-;
    eexists _, _; (split; [reflexivity |]); simpl; rewrite <- ?app_assoc; simpl;
    (split; [reflexivity |]); repeat (split; [reflexivity |]); reflexivity.
Qed.

Lemma Open_stops_at_prompt_failure_witness :
  (InfiniTable.Open (H := Faulty.host)
     (InfiniTable.mk "users" "people who registered" Sim.users_columns)
     (Faulty.boot {[ "prompts/data_generation.txt" := "{{.Missing}}" ]})).1
  = Returns (Err ("failed to render data prompt: "
                  +:+ "failed to execute template prompts/data_generation.txt: "
                  +:+ "can't evaluate field Missing in type main.PromptData")).
Proof.
  destruct (Open_stops_at_prompt_failure (H := Faulty.host)
              (Faulty.boot {[ "prompts/data_generation.txt" := "{{.Missing}}" ]})
              (InfiniTable.mk "users" "people who registered" Sim.users_columns)
              ("failed to execute template prompts/data_generation.txt: "
               +:+ "can't evaluate field Missing in type main.PromptData"))
    as (p' & calls & Hopen & _);
    [ exact I | vm_compute; discriminate | reflexivity | ].
  by rewrite Hopen.
Defined.





(** The two errors of the validation loop. *)
Lemma validateColumns_errors (seen : gmap string bool) (columns : list Column) err :
  InfiniDBModule.validateColumns seen columns = Some err →
  (∃ name, err = DuplicateColumn name) ∨ (∃ type name, err = InvalidType type name).
Proof.
  revert seen. induction columns as [| col columns IH]; intros seen; [done |].
  simpl. destruct (_ || _); [intros [= <-]; left; eauto |].
  destruct (negb _); [intros [= <-]; right; eauto |]. apply IH.
Qed.

(** X20.  The errors of [Connect] are these and no others: too few
    arguments; credentials not set; the schema prompt failing to parse or
    to execute; the generator failing; its answer failing to parse; the
    three validation errors; and whatever error the engine gives when the
    schema is declared to it. *)
Theorem Connect_errors {OS : Type} `{Host OS}
    (p : Process OS) (args : list string) (e : error) (p' : Process OS) :
  InfiniDBModule.Connect args p = (Returns (Err e), p') →
  e = "missing table name argument"
  ∨ e = "OPENAI_API_KEY not set"
  ∨ (∃ err, e = "failed to render schema prompt: failed to parse template prompts/schema_generation.txt: " +:+ err)
  ∨ (∃ err, e = "failed to render schema prompt: failed to execute template prompts/schema_generation.txt: " +:+ err)
  ∨ (∃ err, e = "schema generation failed: " +:+ err)
  ∨ (∃ err, e = "failed to parse schema JSON: " +:+ err)
  ∨ e = EmptySchema
  ∨ (∃ name, e = DuplicateColumn name)
  ∨ (∃ type name, e = InvalidType type name)
  ∨ (∃ schema w, (sqlite_DeclareVTab schema w).1 = Some e).
Proof.
  intros Hrun.
  destruct (decide (len args < 4)%Z) as [Hshort | Hlen].
  { unfold InfiniDBModule.Connect in Hrun. rewrite decide_True in Hrun by done.
    injection Hrun as <- _. by left. }
  rewrite Connect_unfold in Hrun by lia.
  destruct (InfiniDBModule.resolveColumns _ _ p) as [[[cols | err] | msg] p1] eqn:Hres;
    [| injection Hrun as <- <- | done].
  - (* the engine refused *)
    simpl in Hrun.
    destruct (sqlite_DeclareVTab (InfiniDBModule.schemaString cols) (world p1))
      as [[err |] w] eqn:Hdecl; [| done].
    injection Hrun as <- _.
    do 9 right. eexists _, _. by rewrite Hdecl.
  - (* the resolution failed *)
    right. clear Hlen. go_unfold. go_cases Hres; try discriminate; try pick_error.
    match goal with
    | Hv : InfiniDBModule.validateColumns _ _ = Some _ |- _ =>
        destruct (validateColumns_errors _ _ _ Hv) as [Hdup | Htype]
    end.
    + do 6 right. by left.
    + do 7 right. by left.
Qed.

Lemma Connect_errors_witness :
  ∃ type name, "invalid column type: VARCHAR for a" = InvalidType type name.
Proof.
  destruct (Connect_errors
              (Sim.boot (Sim.mk Sim.with_key ∅ [Ok ["clash.schema"]] true))
              ["infinidb"; "main"; "t"; "a table"]
              "invalid column type: VARCHAR for a"
              (mkProcess ∅ (Sim.mk Sim.with_key ∅ [] true)
                 [CallGetenv "OPENAI_API_KEY";
                  CallParseFiles "prompts/schema_generation.txt";
                  CallChat (schemaRequest "prompts/schema_generation.txt: t, a table")]))
    as [Hcase | [Hcase | [Hcase | [Hcase | [Hcase | [Hcase | [Hcase | [Hcase | [Hcase | Hcase]]]]]]]]];
    [ reflexivity | try discriminate Hcase .. ].
  all: try (destruct Hcase as [x Hx]; discriminate Hx).
  - exact Hcase.
  - destruct Hcase as (schema & w & Hdecl). exfalso. revert Hdecl.
    unfold sqlite_DeclareVTab. simpl. unfold Sim.DeclareVTab.
    destruct (Sim.engine_ok w); discriminate.
Defined.

(** X21.  The errors of [Open] are these and no others: credentials not
    set; the data prompt failing to parse or to execute; the generator
    failing; its answer failing to parse; and an answer without rows.  A
    failure to create the cache directory, to read or parse the cache
    file, to encode the rows or to write the cache file is never an error
    of [Open]. *)
Theorem Open_errors {OS : Type} `{Host OS}
    (p : Process OS) (vt : InfiniTable.t) (e : error) (p' : Process OS) :
  InfiniTable.Open vt p = (Returns (Err e), p') →
  e = "OPENAI_API_KEY not set"
  ∨ (∃ err, e = "failed to render data prompt: failed to parse template prompts/data_generation.txt: " +:+ err)
  ∨ (∃ err, e = "failed to render data prompt: failed to execute template prompts/data_generation.txt: " +:+ err)
  ∨ (∃ err, e = "data generation failed: " +:+ err)
  ∨ (∃ err, e = "failed to parse data JSON: " +:+ err)
  ∨ e = EmptyData.
Proof.
  intros Hrun. go_unfold. go_cases Hrun; try discriminate; pick_error.
Qed.

Lemma Open_errors_witness :
  "no data generated" = "OPENAI_API_KEY not set"
  ∨ (∃ err, "no data generated" = "failed to render data prompt: failed to parse template prompts/data_generation.txt: " +:+ err)
  ∨ (∃ err, "no data generated" = "failed to render data prompt: failed to execute template prompts/data_generation.txt: " +:+ err)
  ∨ (∃ err, "no data generated" = "data generation failed: " +:+ err)
  ∨ (∃ err, "no data generated" = "failed to parse data JSON: " +:+ err)
  ∨ "no data generated" = EmptyData.
Proof.
  apply (Open_errors
           (Sim.boot (Sim.mk Sim.with_key ∅ [Ok ["empty.response"]] true))
           (InfiniTable.mk "users" "people who registered" Sim.users_columns)
           "no data generated"
           (InfiniTable.Open
              (InfiniTable.mk "users" "people who registered" Sim.users_columns)
              (Sim.boot (Sim.mk Sim.with_key ∅ [Ok ["empty.response"]] true))).2).
  reflexivity.
Defined.

Section Materialisation.
Context {OS : Type} `{Host OS}.

(** A resolution that reached the generator and got a well-formed column
    set, followed by the declaration. *)
Lemma Connect_reply_run (p : Process OS) (args : list string) ts w :
  (4 ≤ len args)%Z →
  schema_reply p (nth 2 args "") (nth 3 args "") ts w →
  well_formed_columns (Columns ts) →
  let name := nth 2 args "" in
  let cols := Columns ts in
  let declared := sqlite_DeclareVTab (InfiniDBModule.schemaString cols) w in
  ∃ calls,
    generator_calls calls = 1%nat
    ∧ last calls = Some (CallDeclareVTab (InfiniDBModule.schemaString cols))
    ∧ InfiniDBModule.Connect args p
      = (Returns (match declared.1 with
                  | Some err => Err err
                  | None => Ok (InfiniTable.mk name (nth 3 args "") cols)
                  end),
         mkProcess (<[name := cols]> (schemaCache p)) declared.2 (trace p ++ calls)).
Proof.
  intros Hlen Hreply [Hne Hok] name cols declared. subst name cols declared.
  destruct (resolveColumns_reply p _ _ ts w Hreply) as (calls & Hgen & _ & Hres).
  simpl in Hres.
  apply validateColumns_well_formed in Hok.
  rewrite decide_False, Hok in Hres by (by rewrite len_nil_iff).
  exists (calls ++ [CallDeclareVTab (InfiniDBModule.schemaString (Columns ts))]).
  rewrite generator_calls_app, Hgen, last_snoc.
  split; [reflexivity |]. split; [reflexivity |].
  rewrite Connect_unfold, Hres by done. simpl.
  destruct (sqlite_DeclareVTab _ w) as [err w']. simpl.
  unfold record. simpl. by rewrite <- app_assoc.
Qed.

(** The run of [Open] on a usable cache file. *)
Lemma Open_hit_run (p : Process OS) (vt : InfiniTable.t) data rows :
  os_ReadFile (cacheFile (InfiniTable.tableName vt))
    (os_MkdirAll ".cache" (world p)).2 = Ok data →
  json_Unmarshal_rows data = Ok rows →
  ∃ p', InfiniTable.Open vt p = (Returns (Ok (InfiniTable.newCursor vt rows)), p')
        ∧ generator_calls (trace p') = generator_calls (trace p)
        ∧ file_writes (trace p') = file_writes (trace p).
Proof.
  intros Hread Hparse. unfold cacheFile in *. go_unfold. unfold record.
  destruct (os_MkdirAll ".cache" (world p)) as [[err |] w1]; simpl in *;
    rewrite Hread; simpl; rewrite Hparse; simpl;
    eexists; (split; [reflexivity |]); simpl; rewrite <- ?app_assoc; simpl;
    rewrite generator_calls_app, file_writes_app;
    (split; [rewrite <- Nat.add_0_r; f_equal | rewrite <- app_nil_r; f_equal]);
    reflexivity.
Qed.

(** The run of [Open] on an answer with rows: the rows are served, and
    written to the cache file if they can be encoded. *)
Lemma Open_reply_run (p : Process OS) (vt : InfiniTable.t) dataResp w :
  data_reply p vt dataResp w →
  Rows dataResp ≠ [] →
  let file := cacheFile (InfiniTable.tableName vt) in
  let encoded := json_Marshal_rows (Rows dataResp) in
  ∃ p' calls,
    InfiniTable.Open vt p
    = (Returns (Ok (InfiniTable.newCursor vt (Rows dataResp))), p')
    ∧ trace p' = trace p ++ calls
    ∧ schemaCache p' = schemaCache p
    ∧ generator_calls calls = 1%nat
    ∧ file_writes calls
      = match encoded with
        | Ok jsonData => [CallWriteFile file jsonData]
        | Err _ => []
        end
    ∧ world p'
      = match encoded with
        | Ok jsonData => (os_WriteFile file jsonData w).2
        | Err _ => w
        end.
Proof.
  intros (Hcache & Hkey & tmpl & prompt & content & rest
          & Htmpl & Hexec & Hchat & Hjson) Hrows file encoded.
  subst file encoded.
  unfold cache_unusable, cacheFile, dataRequest in *.
  go_unfold. unfold record.
  destruct (os_MkdirAll ".cache" (world p)) as [[e0 |] w1]; simpl in *;
    (destruct (os_ReadFile _ w1) as [data | e1];
     [destruct (json_Unmarshal_rows data) as [rows0 | e2]; [done |] |]);
    simpl; rewrite decide_False by done; simpl;
    rewrite Htmpl; simpl; rewrite Hexec; simpl; rewrite Hchat; simpl;
    rewrite Hjson; simpl;
    rewrite decide_False by (by rewrite len_nil_iff);
    (destruct (json_Marshal_rows (Rows dataResp)) as [jsonData | e3]; simpl;
     [destruct (os_WriteFile _ jsonData w) as [[e4 |] w3]; simpl |]);
    eexists _, _; (split; [reflexivity |]); simpl; rewrite <- ?app_assoc; simpl;
    (split; [reflexivity |]); repeat (split; [reflexivity |]); reflexivity.
Qed.
End Materialisation.

(** X22.  [Connect] caches before it declares.  When the generator's
    answer is a well-formed column set, [Connect] stores it under the table
    name, then declares its schema to the engine, and returns the table or
    the engine's error.  Also when the engine refuses, the columns stay
    cached: a later [Connect] for the name does not invoke the generator
    again. *)
Theorem Connect_caches_before_declaring {OS : Type} `{Host OS}
    (p : Process OS) (args : list string) (tableSchema : TableSchema) (w : OS) :
  (4 ≤ len args)%Z →
  schema_reply p (nth 2 args "") (nth 3 args "") tableSchema w →
  well_formed_columns (Columns tableSchema) →
  let name := nth 2 args "" in
  let cols := Columns tableSchema in
  let declared := sqlite_DeclareVTab (InfiniDBModule.schemaString cols) w in
  let run := InfiniDBModule.Connect args p in
  run.1 = Returns (match declared.1 with
                   | Some err => Err err
                   | None => Ok (InfiniTable.mk name (nth 3 args "") cols)
                   end)
  ∧ schemaCache run.2 = <[name := cols]> (schemaCache p)
  ∧ world run.2 = declared.2
  ∧ generator_calls (trace run.2) = S (generator_calls (trace p))
  ∧ last (trace run.2) = Some (CallDeclareVTab (InfiniDBModule.schemaString cols))
  ∧ (∀ args2 o2 p2,
       (4 ≤ len args2)%Z → nth 2 args2 "" = name →
       InfiniDBModule.Connect args2 run.2 = (o2, p2) →
       generator_calls (trace p2) = generator_calls (trace run.2)
       ∧ ∀ vt, o2 = Returns (Ok vt) → InfiniTable.columns vt = cols).
Proof.
  intros Hlen Hreply Hwf name cols declared run.
  destruct (Connect_reply_run p args tableSchema w Hlen Hreply Hwf)
    as (calls & Hgen & Hlast & Hrun).
  simpl in Hrun, Hlast. subst name cols declared run. rewrite Hrun. simpl.
  split; [done |]. split; [done |]. split; [done |].
  split; [rewrite generator_calls_app; lia |].
  split.
  { destruct calls as [| c calls] using rev_ind; [done |].
    rewrite last_snoc in Hlast. by rewrite app_assoc, last_snoc. }
  intros args2 o2 p2 Hlen2 Hname2 Hrun2.
  destruct (Connect_summary _ args2 o2 p2 Hlen2 Hrun2) as (_ & _ & Hhit).
  rewrite Hname2 in Hhit.
  destruct (Hhit (Columns tableSchema)) as (_ & Hsame & _ & Hcols).
  { simpl. apply lookup_insert_eq. }
  done.
Qed.

Lemma Connect_caches_before_declaring_witness :
  let p := Sim.boot (Sim.mk Sim.with_key ∅ [Ok ["users.schema"]] false) in
  (InfiniDBModule.Connect Sim.users_args p).1 = Returns (Err "declare: syntax error")
  ∧ schemaCache (InfiniDBModule.Connect Sim.users_args p).2
    = <["users" := Sim.users_columns]> ∅.
Proof.
  intros p.
  destruct (Connect_caches_before_declaring p Sim.users_args
              (mkTableSchema Sim.users_columns) (Sim.mk Sim.with_key ∅ [] false))
    as (Hout & Hcache & _).
  - vm_compute. discriminate.
  - split; [reflexivity |]. split; [vm_compute; discriminate |].
    do 4 eexists. repeat split.
  - split; [discriminate |]. apply validateColumns_well_formed. reflexivity.
  - split; [exact Hout | exact Hcache].
Defined.

(** X23.  When the generator's answer to [Open] parses to a response with
    rows, [Open] returns a cursor at position 0 over all of its rows, with
    the columns of the handle, after one generator invocation.  Saving is
    best effort: if the rows can be encoded, the cache file of the table is
    written once, with that encoding, and whether the write succeeds does
    not matter; if they cannot, nothing is written. *)
Theorem Open_materialises {OS : Type} `{Host OS}
    (p : Process OS) (vt : InfiniTable.t) (dataResp : DataResponse) (w : OS) :
  data_reply p vt dataResp w →
  Rows dataResp ≠ [] →
  let file := cacheFile (InfiniTable.tableName vt) in
  ∃ p' calls,
    InfiniTable.Open vt p
    = (Returns (Ok (InfiniCursor.mk (InfiniTable.tableName vt) (Rows dataResp) 0
                      (InfiniTable.columns vt))), p')
    ∧ trace p' = trace p ++ calls
    ∧ schemaCache p' = schemaCache p
    ∧ generator_calls calls = 1%nat
    ∧ file_writes calls
      = match json_Marshal_rows (Rows dataResp) with
        | Ok jsonData => [CallWriteFile file jsonData]
        | Err _ => []
        end.
Proof.
  intros Hreply Hrows file.
  destruct (Open_reply_run p vt dataResp w Hreply Hrows)
    as (p' & calls & Hopen & Htrace & Hcache & Hgen & Hwrites & _).
  exists p', calls. done.
Qed.

Lemma Open_materialises_witness :
  (InfiniTable.Open (InfiniTable.mk "users" "people who registered" Sim.users_columns)
     (Sim.boot (Sim.mk Sim.with_key ∅ [Ok ["users.response"]] true))).1
  = Returns (Ok (InfiniCursor.mk "users" Sim.users_rows 0 Sim.users_columns)).
Proof.
  destruct (Open_materialises
              (Sim.boot (Sim.mk Sim.with_key ∅ [Ok ["users.response"]] true))
              (InfiniTable.mk "users" "people who registered" Sim.users_columns)
              (mkDataResponse Sim.users_rows) (Sim.mk Sim.with_key ∅ [] true))
    as (p' & calls & Hopen & _).
  - split; [exact I |]. split; [vm_compute; discriminate |].
    do 4 eexists. repeat split.
  - discriminate.
  - by rewrite Hopen.
Defined.

(** X24.  The data cache round trip.  If the rows of the generator's
    answer can be encoded, the file system gives back at the next [Open]
    what was written to the cache file, and the encoding decodes to the
    same rows, then a second [Open] of the table returns the same cursor
    as the first without invoking the generator again. *)
Theorem Open_twice_generates_once {OS : Type} `{Host OS}
    (p : Process OS) (vt : InfiniTable.t) (dataResp : DataResponse) (w : OS)
    (jsonData : string) :
  data_reply p vt dataResp w →
  Rows dataResp ≠ [] →
  json_Marshal_rows (Rows dataResp) = Ok jsonData →
  let file := cacheFile (InfiniTable.tableName vt) in
  let written := (os_WriteFile file jsonData w).2 in
  os_ReadFile file (os_MkdirAll ".cache" written).2 = Ok jsonData →
  json_Unmarshal_rows jsonData = Ok (Rows dataResp) →
  let first := InfiniTable.Open vt p in
  let second := InfiniTable.Open vt first.2 in
  first.1 = Returns (Ok (InfiniTable.newCursor vt (Rows dataResp)))
  ∧ second.1 = first.1
  ∧ generator_calls (trace second.2) = S (generator_calls (trace p))
  ∧ length (file_writes (trace second.2)) = S (length (file_writes (trace p))).
Proof.
  intros Hreply Hrows Hencode file written Hread Hdecode first second.
  destruct (Open_reply_run p vt dataResp w Hreply Hrows)
    as (p1 & calls & Hopen & Htrace & _ & Hgen & Hwrites & Hworld).
  rewrite Hencode in Hwrites, Hworld. fold file in Hwrites, Hworld.
  subst first second. rewrite Hopen. simpl.
  destruct (Open_hit_run p1 vt jsonData (Rows dataResp)) as (p2 & Hopen2 & Hgen2 & Hwrites2).
  { rewrite Hworld. exact Hread. }
  { exact Hdecode. }
  rewrite Hopen2. simpl. split; [done |]. split; [done |].
  rewrite Hgen2, Hwrites2, Htrace, generator_calls_app, file_writes_app, Hgen, Hwrites.
  rewrite length_app. simpl. split; lia.
Qed.

Lemma Open_twice_generates_once_witness :
  let vt := InfiniTable.mk "users" "people who registered" Sim.users_columns in
  let p := Sim.boot (Sim.mk Sim.with_key ∅ [Ok ["users.response"]] true) in
  (InfiniTable.Open vt (InfiniTable.Open vt p).2).1 = (InfiniTable.Open vt p).1.
Proof.
  intros vt p.
  destruct (Open_twice_generates_once p vt (mkDataResponse Sim.users_rows)
              (Sim.mk Sim.with_key ∅ [] true) "users.rows")
    as (_ & Hsame & _).
  - split; [exact I |]. split; [vm_compute; discriminate |].
    do 4 eexists. repeat split.
  - discriminate.
  - reflexivity.
  - reflexivity.
  - reflexivity.
  - exact Hsame.
Defined.

Section Budget.
Context {OS : Type} `{Host OS}.

Lemma file_writes_none (calls : list Call) :
  Forall (λ c, is_file_write c = false) calls → file_writes calls = [].
Proof.
  unfold file_writes. induction 1 as [| c calls Hc _ IH]; [done |].
  rewrite filter_cons, decide_False by congruence. exact IH.
Qed.

(** One request invokes the generator at most once; only [Open] writes a
    file, and at most one. *)
Lemma perform_budget (op : Operation) (p : Process OS) :
  (generator_calls (trace p) ≤ generator_calls (trace (perform op p))
   ≤ generator_calls (trace p) + 1)%nat
  ∧ (length (file_writes (trace (perform op p)))
     ≤ length (file_writes (trace p)) + opens [op])%nat.
Proof.
  destruct op as [args | vt]; simpl.
  - destruct (InfiniDBModule.Connect args p) as [o p'] eqn:Hrun. simpl.
    destruct (decide (len args < 4)%Z) as [Hshort | Hlen].
    { unfold InfiniDBModule.Connect in Hrun. rewrite decide_True in Hrun by done.
      injection Hrun as _ <-. lia. }
    pose proof (Connect_inv p args o p' ltac:(lia) Hrun) as Hinv. simpl in Hinv.
    assert (∃ calls, trace p' = trace p ++ calls
                     ∧ (generator_calls calls ≤ 1)%nat
                     ∧ Forall (λ c, is_file_write c = false) calls)
      as (calls & -> & Hgen & Hnowrite).
    { destruct (schemaCache p !! nth 2 args "") as [cached |].
      - destruct Hinv as (Htrace & _). eexists. split; [exact Htrace |].
        split; [compute; lia | by repeat constructor].
      - destruct Hinv as (calls & Htrace & Hnowrite & [(cols & _ & _ & Hgen & _)
                                                     | (_ & _ & Hgen & _)]);
          exists calls; (split; [done |]); split; (lia || done). }
    rewrite generator_calls_app, file_writes_app, length_app.
    rewrite (file_writes_none calls Hnowrite). simpl. lia.
  - destruct (InfiniTable.Open vt p) as [o p'] eqn:Hrun. simpl.
    destruct (Open_inv p vt o p' Hrun) as (_ & calls & -> & Hgen & Hfail & Hok).
    rewrite generator_calls_app, file_writes_app, length_app.
    split; [lia |].
    assert (length (file_writes calls) ≤ 1)%nat; [| unfold opens; simpl; lia].
    destruct o as [[cur | err] | msg].
    + destruct (Hok cur eq_refl)
        as [_ [(? & _ & _ & _ & ->)
              | (? & ? & _ & _ & _ & _ & [-> | (? & _ & ->)])]]; simpl; lia.
    + rewrite Hfail by done. simpl. lia.
    + rewrite Hfail by done. simpl. lia.
Qed.
End Budget.

(** X25.  The cost of a sequence of requests is bounded: each [Connect]
    and each [Open] invokes the generator at most once, so a sequence of
    [n] requests makes at most [n] generator invocations; only [Open]
    writes files, at most one each; and nothing is ever taken back from
    the record of invocations. *)
Theorem session_budget {OS : Type} `{Host OS} (p : Process OS) (ops : list Operation) :
  (generator_calls (trace p) ≤ generator_calls (trace (session ops p))
   ≤ generator_calls (trace p) + length ops)%nat
  ∧ (length (file_writes (trace (session ops p)))
     ≤ length (file_writes (trace p)) + opens ops)%nat.
Proof.
  unfold session. revert p. induction ops as [| op ops IH]; intros p.
  { simpl. unfold opens. simpl. lia. }
  simpl. specialize (IH (perform op p)).
  destruct (perform_budget op p) as [Hgen Hwrites].
  assert (opens (op :: ops) = opens [op] + opens ops)%nat as ->.
  { unfold opens. change (op :: ops) with ([op] ++ ops).
    by rewrite filter_app, length_app. }
  lia.
Qed.
